(** * fcl/math/sampling.h: the random engine and the pose samplers

    A shallow embedding of [include/fcl/math/sampling.h].

    - [double] and [FCL_REAL] are read as real numbers: the theorems are
      proved with exact arithmetic, and those on the range of a draw
      state only what the rounding of binary64 leaves true: closed
      intervals, under the hypothesis [finite_width] that the bounds are
      finite doubles whose difference does not overflow.  Module
      [Binary64] evaluates the arithmetic of the engine on doubles, where
      a law of the reals does not carry over.
    - [int] is [Z]; the conversion of a [double] to [int] faults outside
      the range of a 32-bit [int].
    - A member function is a state transformer over its object that
      returns a value and the object after the call, or a fault.
    - What the header takes from elsewhere (the standard generator and
      its unit distribution, the build's [NDEBUG], the vector type and
      the Euler conversion of the linear-algebra library) is an interface
      the development is parametric in. *)

From Stdlib Require PrimFloat FloatOps SpecFloat Uint63.
From Stdlib Require Import Reals Lra Lia ZArith List Bool.
Import ListNotations.
Local Open Scope R_scope.

(** ** Outcomes of a call *)

Inductive fault : Type :=
| AssertionFailed
| OutOfRange (index size : nat)
| NotRepresentable.

Inductive result (A : Type) : Type :=
| Ok (a : A)
| Err (e : fault).

Arguments Ok {A} a.
Arguments Err {A} e.

(** ** Member functions: state and faults *)

Definition M (T A : Type) : Type := T -> result (A * T).

Definition ret {T A : Type} (a : A) : M T A :=
  fun s => Ok (a, s).

Definition bind {T A B : Type} (m : M T A) (k : A -> M T B) : M T B :=
  fun s => match m s with
           | Ok (a, s') => k a s'
           | Err e => Err e
           end.

Definition lift {T A : Type} (r : result A) : M T A :=
  fun s => match r with
           | Ok a => Ok (a, s)
           | Err e => Err e
           end.

Notation "x <- m ;; k" := (bind m (fun x => k))
  (at level 61, m at next level, right associativity).
Notation "' p <- m ;; k" := (bind m (fun x => let p := x in k))
  (at level 61, p pattern, m at next level, right associativity).

(** [for (std::size_t i = i0; i < i0 + n; ++i) a = body(i, a);] *)
Fixpoint for_ {T A : Type} (n i0 : nat) (body : nat -> A -> M T A) (a : A)
  : M T A :=
  match n with
  | O => ret a
  | S n' => a' <- body i0 a ;; for_ n' (S i0) body a'
  end.

(** ** Scalars *)

(** [double], the typedef [FCL_REAL] of it, and [int]. *)
Abbreviation double := R (only parsing).
Abbreviation FCL_REAL := R (only parsing).
Abbreviation int := Z (only parsing).

Definition INT_MIN : Z := (- 2 ^ 31)%Z.
Definition INT_MAX : Z := (2 ^ 31 - 1)%Z.

Definition in_int (z : Z) : Prop := (INT_MIN <= z <= INT_MAX)%Z.

(** The largest finite double, [(2 - 2^-52) * 2^1023]. *)
Definition DBL_MAX : R := IZR ((2 ^ 53 - 1) * 2 ^ 971).

(** [lo] and [up] are finite doubles and [up - lo] does not overflow. *)
Definition finite_width (lo up : R) : Prop :=
  Rabs lo <= DBL_MAX /\ Rabs up <= DBL_MAX /\ Rabs (up - lo) <= DBL_MAX.

(** [a <= b] on doubles, as a test. *)
Definition Rle_bool (a b : double) : bool :=
  if Rle_dec a b then true else false.

(** [floor] of <cmath>. *)
Definition floor (x : double) : double := IZR (Int_part x).

(** The value of [x] without its fractional part. *)
Definition trunc (x : double) : Z :=
  if Rle_dec 0 x then Int_part x else (- Int_part (- x))%Z.

(** [(int)x]: truncation; outside the range of [int] the conversion is
    undefined. *)
Definition int_of_double (x : double) : result int :=
  let z := trunc x in
  if ((INT_MIN <=? z) && (z <=? INT_MAX))%Z then Ok z else Err NotRepresentable.

(** ** The standard library and the build *)

(** [std::mt19937 generator_] with [std::uniform_real_distribution<>
    uniDist_]: one draw yields a double of [[0, 1)] and the generator
    after it. *)
Class StdRandom : Type := {
  mt19937 : Type;
  uniDist_ : mt19937 -> double * mt19937;
  uniDist_unit : forall g, 0 <= fst (uniDist_ g) < 1
}.

(** [assert] of <cassert> is compiled out under [NDEBUG]. *)
Class Build : Type := {
  NDEBUG : bool
}.

Definition assert_ {build : Build} {T : Type} (c : bool) : M T unit :=
  fun s => if NDEBUG || c then Ok (tt, s) else Err AssertionFailed.

(** ** class RNG *)

Record RNG {std : StdRandom} : Type := {
  generator_ : mt19937
}.

Section RNG_members.
Context {std : StdRandom} {build : Build}.

(** The expression [uniDist_(generator_)]: it yields the draw and leaves
    the generator advanced. *)
Definition uniDist_generator_ : M RNG double :=
  fun this =>
    let (u, g) := uniDist_ (generator_ this) in
    Ok (u, {| generator_ := g |}).

Definition uniform01 : M RNG double :=
  uniDist_generator_.

(** Over the reals the value is exact; [Binary64.uniformReal] is the same
    expression on doubles, where it can round to [upper_bound] and
    overflow. *)
Definition uniformReal (lower_bound upper_bound : double) : M RNG double :=
  _ <- assert_ (Rle_bool lower_bound upper_bound) ;;
  u <- uniDist_generator_ ;;
  ret ((upper_bound - lower_bound) * u + lower_bound).

(** Over the reals the floor stays below [upper_bound + 1] whenever
    [lower_bound <= upper_bound]; on doubles it reaches it
    ([Binary64.uniformInt]), which is what the clamp is for. *)
Definition uniformInt (lower_bound upper_bound : int) : M RNG int :=
  x <- uniformReal (IZR lower_bound) (IZR upper_bound + 1) ;;
  r <- lift (int_of_double (floor x)) ;;
  ret (if (r >? upper_bound)%Z then upper_bound else r).

Definition uniformBool : M RNG bool :=
  u <- uniDist_generator_ ;;
  ret (Rle_bool u (1 / 2)).

End RNG_members.

(** Modelled from the spec: [RNG::quaternion] is declared in the header
    and defined outside it.  Spec 4.1: three independent uniform [[0,1)]
    draws [u1, u2, u3];
    [x = sqrt(1-u1)*sin(2 pi u2)], [y = sqrt(1-u1)*cos(2 pi u2)],
    [z = sqrt(u1)*sin(2 pi u3)], [w = sqrt(u1)*cos(2 pi u3)];
    the value has the order (x, y, z, w). *)
Definition quaternion {std : StdRandom}
  : M RNG (double * double * double * double) :=
  u1 <- uniform01 ;;
  u2 <- uniform01 ;;
  u3 <- uniform01 ;;
  ret (sqrt (1 - u1) * sin (2 * PI * u2),
       sqrt (1 - u1) * cos (2 * PI * u2),
       sqrt u1 * sin (2 * PI * u3),
       sqrt u1 * cos (2 * PI * u3)).

(** Modelled from the spec: [RNG::disk] is declared in the header and
    defined outside it.  Spec 4.1: draw the angle
    [theta = uniformReal(0, 2 pi)] and the radius
    [rho = sqrt(uniformReal(r_min^2, r_max^2))]; return
    [(rho cos theta, rho sin theta)]. *)
Definition disk {std : StdRandom} {build : Build} (r_min r_max : double)
  : M RNG (double * double) :=
  theta <- uniformReal 0 (2 * PI) ;;
  rho2 <- uniformReal (r_min * r_min) (r_max * r_max) ;;
  ret (sqrt rho2 * cos theta, sqrt rho2 * sin theta).

(** What the samplers call and the header only declares or includes:
    [RNG::ball], whose construction the spec leaves open, and the
    conversion [Quaternion3d(a, b, c, d).toRotationMatrix()
    .eulerAngles(0, 1, 2)] of the linear-algebra library. *)
Class External {std : StdRandom} : Type := {
  ball : double -> double -> M RNG (double * double * double);
  eulerAngles : double -> double -> double -> double
                -> double * double * double
}.

(** ** VectorNd<N> *)

Definition VectorNd : Type := list FCL_REAL.

(** The vector type is defined outside the header: what a
    default-constructed [VectorNd<N>] holds, and what [v[i]] yields for an
    index past the end of a [VectorNd<N>], are its business.  The read
    past the end is fixed for the object at hand, not for the type: it
    may fault, or yield what lies behind the vector in that object (see
    [adjacent_vectors]). *)
Class VectorType : Type := {
  VectorNd_init : nat -> VectorNd;
  VectorNd_init_size : forall N, length (VectorNd_init N) = N;
  past_end : nat -> VectorNd -> nat -> result FCL_REAL
}.

Fixpoint update (i : nat) (x : FCL_REAL) (v : VectorNd) : VectorNd :=
  match v, i with
  | [], _ => []
  | _ :: v', O => x :: v'
  | y :: v', S i' => y :: update i' x v'
  end.

(** [v[i]] read from a [VectorNd<N>]. *)
Definition coeff {vec : VectorType} (N : nat) (v : VectorNd) (i : nat)
  : result FCL_REAL :=
  if (i <? N)%nat then
    match nth_error v i with
    | Some x => Ok x
    | None => Err (OutOfRange i N)
    end
  else past_end N v i.

(** [q[i] = x] on a [VectorNd<N>]. *)
Definition set_coeff (N : nat) (q : VectorNd) (i : nat) (x : FCL_REAL)
  : result VectorNd :=
  if (i <? N)%nat then Ok (update i x q) else Err (OutOfRange i N).

(** ** class SamplerBase *)

Record SamplerBase {std : StdRandom} : Type := {
  rng : RNG
}.

(** [class T : public SamplerBase]. *)
Class Derived {std : StdRandom} (T : Type) : Type := {
  base : T -> SamplerBase;
  with_base : SamplerBase -> T -> T
}.

(** [rng.f(...)] inside a member function of a sampler; [rng] is
    [mutable], so the call goes through in [const] members too. *)
Definition rng_call {std : StdRandom} {T : Type} {D : Derived T} {A : Type}
  (f : M RNG A) : M T A :=
  fun this =>
    match f (rng (base this)) with
    | Ok (a, r) => Ok (a, with_base {| rng := r |} this)
    | Err e => Err e
    end.

(** Reading a data member. *)
Definition member {T A : Type} (f : T -> A) : M T A :=
  fun this => Ok (f this, this).

(** [field[i]] for a [VectorNd<N>] data member. *)
Definition member_coeff {vec : VectorType} {T : Type} (N : nat)
  (field : T -> VectorNd) (i : nat) : M T FCL_REAL :=
  v <- member field ;;
  lift (coeff N v i).

(** [q[i] = f(...)] as a step on the local [q]. *)
Definition assign {T : Type} (N : nat) (q : VectorNd) (i : nat)
  (x : FCL_REAL) : M T VectorNd :=
  lift (set_coeff N q i x).

(** ** template<std::size_t N> class SamplerR *)

Module SamplerR.

Record t {std : StdRandom} : Type := {
  sampler_base : SamplerBase;
  lower_bound : VectorNd;
  upper_bound : VectorNd
}.

#[global] Instance derived {std : StdRandom} : Derived t := {|
  base := sampler_base;
  with_base := fun b this =>
    {| sampler_base := b;
       lower_bound := lower_bound this;
       upper_bound := upper_bound this |}
|}.

Section Members.
Context {std : StdRandom} {build : Build} {vec : VectorType}.

(** [SamplerR() {}]; [r] is the engine that [RNG()] constructed. *)
Definition default_ctor (N : nat) (r : RNG) : t :=
  {| sampler_base := {| rng := r |};
     lower_bound := VectorNd_init N;
     upper_bound := VectorNd_init N |}.

Definition ctor (r : RNG) (lower_bound_ upper_bound_ : VectorNd) : t :=
  {| sampler_base := {| rng := r |};
     lower_bound := lower_bound_;
     upper_bound := upper_bound_ |}.

Definition setBound (lower_bound_ upper_bound_ : VectorNd) : M t unit :=
  fun this =>
    Ok (tt, {| sampler_base := sampler_base this;
               lower_bound := lower_bound_;
               upper_bound := upper_bound_ |}).

Definition getBound : M t (VectorNd * VectorNd) :=
  lo <- member lower_bound ;;
  up <- member upper_bound ;;
  ret (lo, up).

(** The body of the loop of [sample]:
    [q[i] = rng.uniformReal(lower_bound[i], upper_bound[i]);] *)
Definition sample_body (N : nat) (i : nat) (q : VectorNd) : M t VectorNd :=
  lo <- member_coeff N lower_bound i ;;
  up <- member_coeff N upper_bound i ;;
  x <- rng_call (uniformReal lo up) ;;
  assign N q i x.

Definition sample (N : nat) : M t VectorNd :=
  for_ N 0 (sample_body N) (VectorNd_init N).

End Members.
End SamplerR.

(** ** class SamplerSE2 *)

Module SamplerSE2.

Record t {std : StdRandom} : Type := {
  sampler_base : SamplerBase;
  lower_bound : VectorNd;
  upper_bound : VectorNd
}.

#[global] Instance derived {std : StdRandom} : Derived t := {|
  base := sampler_base;
  with_base := fun b this =>
    {| sampler_base := b;
       lower_bound := lower_bound this;
       upper_bound := upper_bound this |}
|}.

Section Members.
Context {std : StdRandom} {build : Build} {vec : VectorType}.

Definition default_ctor (r : RNG) : t :=
  {| sampler_base := {| rng := r |};
     lower_bound := VectorNd_init 2;
     upper_bound := VectorNd_init 2 |}.

Definition ctor (r : RNG) (lower_bound_ upper_bound_ : VectorNd) : t :=
  {| sampler_base := {| rng := r |};
     lower_bound := lower_bound_;
     upper_bound := upper_bound_ |}.

Definition ctor4 (r : RNG) (x_min x_max y_min y_max : FCL_REAL) : t :=
  {| sampler_base := {| rng := r |};
     lower_bound := [x_min; y_min];
     upper_bound := [x_max; y_max] |}.

Definition setBound (lower_bound_ upper_bound_ : VectorNd) : M t unit :=
  fun this =>
    Ok (tt, {| sampler_base := sampler_base this;
               lower_bound := lower_bound_;
               upper_bound := upper_bound_ |}).

Definition getBound : M t (VectorNd * VectorNd) :=
  lo <- member lower_bound ;;
  up <- member upper_bound ;;
  ret (lo, up).

Definition sample : M t VectorNd :=
  let q := VectorNd_init 3 in
  a <- member_coeff 2 lower_bound 0 ;;
  b <- member_coeff 2 lower_bound 1 ;;
  x <- rng_call (uniformReal a b) ;;
  q <- assign 3 q 0 x ;;
  a <- member_coeff 2 lower_bound 1 ;;
  b <- member_coeff 2 lower_bound 2 ;;
  y <- rng_call (uniformReal a b) ;;
  q <- assign 3 q 1 y ;;
  h <- rng_call (uniformReal (- PI) PI) ;;
  q <- assign 3 q 2 h ;;
  ret q.

End Members.
End SamplerSE2.

(** ** class SamplerSE2_disk *)

Module SamplerSE2_disk.

(** [FCL_REAL c[2]] and [FCL_REAL cref[2]] are pairs: [c[0]] is [fst c]
    and [c[1]] is [snd c]. *)
Record t {std : StdRandom} : Type := {
  sampler_base : SamplerBase;
  c : FCL_REAL * FCL_REAL;
  cref : FCL_REAL * FCL_REAL;
  r_min : FCL_REAL;
  r_max : FCL_REAL
}.

#[global] Instance derived {std : StdRandom} : Derived t := {|
  base := sampler_base;
  with_base := fun b this =>
    {| sampler_base := b;
       c := c this;
       cref := cref this;
       r_min := r_min this;
       r_max := r_max this |}
|}.

Section Members.
Context {std : StdRandom} {build : Build} {vec : VectorType}.

Definition setBound (cx cy r1 r2 crefx crefy : FCL_REAL) : M t unit :=
  fun this =>
    Ok (tt, {| sampler_base := sampler_base this;
               c := (cx, cy);
               cref := (crefx, crefy);
               r_min := r1;
               r_max := r2 |}).

(** The constructor only calls [setBound]. *)
Definition ctor (r : RNG) (cx cy r1 r2 crefx crefy : FCL_REAL) : t :=
  {| sampler_base := {| rng := r |};
     c := (cx, cy);
     cref := (crefx, crefy);
     r_min := r1;
     r_max := r2 |}.

Definition sample : M t VectorNd :=
  let q := VectorNd_init 3 in
  rmin <- member r_min ;;
  rmax <- member r_max ;;
  ' (x, y) <- rng_call (disk rmin rmax) ;;
  c_ <- member c ;;
  cref_ <- member cref ;;
  q <- assign 3 q 0 (x + fst c_ - fst cref_) ;;
  q <- assign 3 q 1 (y + snd c_ - snd cref_) ;;
  h <- rng_call (uniformReal (- PI) PI) ;;
  q <- assign 3 q 2 h ;;
  ret q.

End Members.
End SamplerSE2_disk.

(** ** class SamplerSE3Euler *)

Module SamplerSE3Euler.

Record t {std : StdRandom} : Type := {
  sampler_base : SamplerBase;
  lower_bound : VectorNd;
  upper_bound : VectorNd
}.

#[global] Instance derived {std : StdRandom} : Derived t := {|
  base := sampler_base;
  with_base := fun b this =>
    {| sampler_base := b;
       lower_bound := lower_bound this;
       upper_bound := upper_bound this |}
|}.

Section Members.
Context {std : StdRandom} {build : Build} {vec : VectorType}
  {ext : External}.

Definition ctor (r : RNG) (lower_bound_ upper_bound_ : VectorNd) : t :=
  {| sampler_base := {| rng := r |};
     lower_bound := lower_bound_;
     upper_bound := upper_bound_ |}.

Definition setBound (lower_bound_ upper_bound_ : VectorNd) : M t unit :=
  fun this =>
    Ok (tt, {| sampler_base := sampler_base this;
               lower_bound := lower_bound_;
               upper_bound := upper_bound_ |}).

Definition getBound : M t (VectorNd * VectorNd) :=
  lo <- member lower_bound ;;
  up <- member upper_bound ;;
  ret (lo, up).

Definition sample : M t VectorNd :=
  let q := VectorNd_init 6 in
  a <- member_coeff 3 lower_bound 0 ;;
  b <- member_coeff 3 upper_bound 0 ;;
  x <- rng_call (uniformReal a b) ;;
  q <- assign 6 q 0 x ;;
  a <- member_coeff 3 lower_bound 1 ;;
  b <- member_coeff 3 upper_bound 1 ;;
  y <- rng_call (uniformReal a b) ;;
  q <- assign 6 q 1 y ;;
  a <- member_coeff 3 lower_bound 2 ;;
  b <- member_coeff 3 upper_bound 2 ;;
  z <- rng_call (uniformReal a b) ;;
  q <- assign 6 q 2 z ;;
  ' (s0, s1, s2, s3) <- rng_call quaternion ;;
  let '(angles0, angles1, angles2) := eulerAngles s0 s1 s2 s3 in
  q <- assign 6 q 3 angles0 ;;
  q <- assign 6 q 4 angles1 ;;
  q <- assign 6 q 5 angles2 ;;
  ret q.

End Members.
End SamplerSE3Euler.

(** ** class SamplerSE3Quat *)

Module SamplerSE3Quat.

Record t {std : StdRandom} : Type := {
  sampler_base : SamplerBase;
  lower_bound : VectorNd;
  upper_bound : VectorNd
}.

#[global] Instance derived {std : StdRandom} : Derived t := {|
  base := sampler_base;
  with_base := fun b this =>
    {| sampler_base := b;
       lower_bound := lower_bound this;
       upper_bound := upper_bound this |}
|}.

Section Members.
Context {std : StdRandom} {build : Build} {vec : VectorType}.

Definition ctor (r : RNG) (lower_bound_ upper_bound_ : VectorNd) : t :=
  {| sampler_base := {| rng := r |};
     lower_bound := lower_bound_;
     upper_bound := upper_bound_ |}.

Definition setBound (lower_bound_ upper_bound_ : VectorNd) : M t unit :=
  fun this =>
    Ok (tt, {| sampler_base := sampler_base this;
               lower_bound := lower_bound_;
               upper_bound := upper_bound_ |}).

Definition getBound : M t (VectorNd * VectorNd) :=
  lo <- member lower_bound ;;
  up <- member upper_bound ;;
  ret (lo, up).

Definition sample : M t VectorNd :=
  let q := VectorNd_init 7 in
  a <- member_coeff 3 lower_bound 0 ;;
  b <- member_coeff 3 upper_bound 0 ;;
  x <- rng_call (uniformReal a b) ;;
  q <- assign 7 q 0 x ;;
  a <- member_coeff 3 lower_bound 1 ;;
  b <- member_coeff 3 upper_bound 1 ;;
  y <- rng_call (uniformReal a b) ;;
  q <- assign 7 q 1 y ;;
  a <- member_coeff 3 lower_bound 2 ;;
  b <- member_coeff 3 upper_bound 2 ;;
  z <- rng_call (uniformReal a b) ;;
  q <- assign 7 q 2 z ;;
  ' (s0, s1, s2, s3) <- rng_call quaternion ;;
  q <- assign 7 q 3 s0 ;;
  q <- assign 7 q 4 s1 ;;
  q <- assign 7 q 5 s2 ;;
  q <- assign 7 q 6 s3 ;;
  ret q.

End Members.
End SamplerSE3Quat.

(** ** class SamplerSE3Euler_ball *)

Module SamplerSE3Euler_ball.

Record t {std : StdRandom} : Type := {
  sampler_base : SamplerBase;
  r : FCL_REAL
}.

#[global] Instance derived {std : StdRandom} : Derived t := {|
  base := sampler_base;
  with_base := fun b this => {| sampler_base := b; r := r this |}
|}.

Section Members.
Context {std : StdRandom} {build : Build} {vec : VectorType}
  {ext : External}.

Definition ctor (g : RNG) (r_ : FCL_REAL) : t :=
  {| sampler_base := {| rng := g |}; r := r_ |}.

Definition setBound (r_ : FCL_REAL) : M t unit :=
  fun this => Ok (tt, {| sampler_base := sampler_base this; r := r_ |}).

Definition getBound : M t FCL_REAL := member r.

Definition sample : M t VectorNd :=
  let q := VectorNd_init 6 in
  r_ <- member r ;;
  ' (x, y, z) <- rng_call (ball 0 r_) ;;
  q <- assign 6 q 0 x ;;
  q <- assign 6 q 1 y ;;
  q <- assign 6 q 2 z ;;
  ' (s0, s1, s2, s3) <- rng_call quaternion ;;
  let '(angles0, angles1, angles2) := eulerAngles s0 s1 s2 s3 in
  q <- assign 6 q 3 angles0 ;;
  q <- assign 6 q 4 angles1 ;;
  q <- assign 6 q 5 angles2 ;;
  ret q.

End Members.
End SamplerSE3Euler_ball.

(** ** class SamplerSE3Quat_ball *)

Module SamplerSE3Quat_ball.

Record t {std : StdRandom} : Type := {
  sampler_base : SamplerBase;
  r : FCL_REAL
}.

#[global] Instance derived {std : StdRandom} : Derived t := {|
  base := sampler_base;
  with_base := fun b this => {| sampler_base := b; r := r this |}
|}.

Section Members.
Context {std : StdRandom} {build : Build} {vec : VectorType}
  {ext : External}.

Definition ctor (g : RNG) (r_ : FCL_REAL) : t :=
  {| sampler_base := {| rng := g |}; r := r_ |}.

Definition setBound (r_ : FCL_REAL) : M t unit :=
  fun this => Ok (tt, {| sampler_base := sampler_base this; r := r_ |}).

Definition getBound : M t FCL_REAL := member r.

Definition sample : M t VectorNd :=
  let q := VectorNd_init 7 in
  r_ <- member r ;;
  ' (x, y, z) <- rng_call (ball 0 r_) ;;
  q <- assign 7 q 0 x ;;
  q <- assign 7 q 1 y ;;
  q <- assign 7 q 2 z ;;
  ' (s0, s1, s2, s3) <- rng_call quaternion ;;
  q <- assign 7 q 3 s0 ;;
  q <- assign 7 q 4 s1 ;;
  q <- assign 7 q 5 s2 ;;
  q <- assign 7 q 6 s3 ;;
  ret q.

End Members.
End SamplerSE3Quat_ball.

(** ** Reading the engine *)

(** The double the next [uniform01()] returns, and the engine after it. *)
Definition draw {std : StdRandom} (g : RNG) : double :=
  fst (uniDist_ (generator_ g)).

Definition advance {std : StdRandom} (g : RNG) : RNG :=
  {| generator_ := snd (uniDist_ (generator_ g)) |}.

(** The engine after [n] draws. *)
Fixpoint advance_n {std : StdRandom} (n : nat) (g : RNG) : RNG :=
  match n with
  | O => g
  | S n' => advance_n n' (advance g)
  end.

(** The box draw in the spec's words: each coordinate is drawn by
    [uniformReal(lower[i], upper[i])], one after the other in index
    order. *)
Fixpoint box_draws {std : StdRandom} {build : Build}
  (lower upper : list double) : M RNG (list double) :=
  match lower, upper with
  | lo :: lower', up :: upper' =>
      x <- uniformReal lo up ;;
      xs <- box_draws lower' upper' ;;
      ret (x :: xs)
  | _, _ => ret []
  end.

(** The point that [box_draws] returns when no assertion fails: the
    [i]-th coordinate is scaled from the [i]-th draw of the engine. *)
Fixpoint box_point {std : StdRandom} (lower upper : list double) (g : RNG)
  : list double :=
  match lower, upper with
  | lo :: lower', up :: upper' =>
      ((up - lo) * draw g + lo) :: box_point lower' upper' (advance g)
  | _, _ => []
  end.


(** A call that returns leaves the data members [bounds] of its sampler
    as they were: the object after the call is the object before it with
    another engine. *)
Definition frame {std : StdRandom} {T : Type} {D : Derived T} {B A : Type}
  (bounds : T -> B) (m : M T A) : Prop :=
  forall (this : T) (a : A) (this' : T),
    m this = Ok (a, this') ->
    bounds this' = bounds this /\ this' = with_base (base this') this.

(** The same for one projection of the object. *)
Definition keeps {T B A : Type} (f : T -> B) (m : M T A) : Prop :=
  forall (this : T) (a : A) (this' : T),
    m this = Ok (a, this') -> f this' = f this.

(** ** Instances to run the model on *)

(** An engine whose every draw is the midpoint 1/2; the state counts the
    draws. *)
Definition midpoint_random : StdRandom.
Proof.
  refine {| mt19937 := nat; uniDist_ := fun n => (1 / 2, S n) |}.
  intros g; simpl; lra.
Defined.

(** An engine whose every draw is 0. *)
Definition zero_random : StdRandom.
Proof.
  refine {| mt19937 := nat; uniDist_ := fun n => (0, S n) |}.
  intros g; simpl; lra.
Defined.

(** The engine before its first draw. *)
Definition fresh (std : StdRandom) (g : @mt19937 std) : @RNG std :=
  {| generator_ := g |}.

Definition debug_build : Build := {| NDEBUG := false |}.
Definition release_build : Build := {| NDEBUG := true |}.

(** Vectors that start zeroed and check every index. *)
Definition checked_vectors : VectorType :=
  {| VectorNd_init := fun N => repeat 0 N;
     VectorNd_init_size := fun N => repeat_length 0 N;
     past_end := fun N _ i => Err (OutOfRange i N) |}.

(** Vectors that start zeroed and yield [d] for every read past the
    end. *)
Definition stray_vectors (d : FCL_REAL) : VectorType :=
  {| VectorNd_init := fun N => repeat 0 N;
     VectorNd_init_size := fun N => repeat_length 0 N;
     past_end := fun _ _ _ => Ok d |}.


(** A ball draw along the first axis and a conversion to zero angles. *)
Definition axis_external {std : StdRandom} : External := {|
  ball := fun _ r_max => u <- uniform01 ;; ret (r_max * u, 0, 0);
  eulerAngles := fun _ _ _ _ => (0, 0, 0)
|}.

(** ** The arithmetic of the engine in binary64 *)

(** [RNG::uniformReal] and [RNG::uniformInt] on doubles, for the draw [u]
    that [uniDist_(generator_)] returned. *)
Module Binary64.
Import PrimFloat.
Local Open Scope float_scope.

Definition uniformReal (ndebug : bool) (lower_bound upper_bound u : float)
  : result float :=
  if ndebug || (lower_bound <=? upper_bound)
  then Ok ((upper_bound - lower_bound) * u + lower_bound)
  else Err AssertionFailed.

(** [(double)z] for an [int] [z]. *)
Definition of_int (z : Z) : float :=
  match z with
  | Z0 => 0
  | Zpos _ => of_uint63 (Uint63.of_Z z)
  | Zneg _ => - of_uint63 (Uint63.of_Z (- z))
  end.

(** The integer that [floor(x)] is, for a finite [x]. *)
Definition floor_Z (x : float) : option Z :=
  match FloatOps.Prim2SF x with
  | SpecFloat.S754_zero _ => Some 0%Z
  | SpecFloat.S754_finite s m e =>
      let v := if s then Zneg m else Zpos m in
      Some (if (0 <=? e)%Z then (v * 2 ^ e)%Z else (v / 2 ^ (- e))%Z)
  | _ => None
  end.

(** [(int)floor(x)]: undefined when the floor is no [int]. *)
Definition int_of_floor (x : float) : result Z :=
  match floor_Z x with
  | Some r =>
      if ((INT_MIN <=? r) && (r <=? INT_MAX))%Z then Ok r
      else Err NotRepresentable
  | None => Err NotRepresentable
  end.

Definition uniformInt (ndebug : bool) (lower_bound upper_bound : Z)
  (u : float) : result Z :=
  match uniformReal ndebug (of_int lower_bound) (of_int upper_bound + 1) u
  with
  | Ok x =>
      match int_of_floor x with
      | Ok r => Ok (if (r >? upper_bound)%Z then upper_bound else r)
      | Err e => Err e
      end
  | Err e => Err e
  end.

(** The largest double below 1, [1 - 2^-53]: the largest draw. *)
Definition u_max : float := 0x1.fffffffffffffp-1.

Definition half : float := 0.5.

(** The largest finite double. *)
Definition dbl_max : float := 0x1.fffffffffffffp+1023.

End Binary64.

(** * Properties *)

(** ** The engine *)

Section RNG_facts.
Context {std : StdRandom} {build : Build}.

Lemma draw_unit (g : RNG) : 0 <= draw g < 1.
Proof. unfold draw. apply uniDist_unit. Qed.

Lemma uniDist_generator_eq (g : RNG) :
  uniDist_generator_ g = Ok (draw g, advance g).
Proof.
  unfold uniDist_generator_, draw, advance.
  destruct (uniDist_ (generator_ g)); reflexivity.
Qed.

Lemma uniform01_eq (g : RNG) : uniform01 g = Ok (draw g, advance g).
Proof. apply uniDist_generator_eq. Qed.

Lemma assert_true {T : Type} (s : T) : assert_ true s = Ok (tt, s).
Proof. unfold assert_. rewrite orb_true_r. reflexivity. Qed.

Lemma Rle_bool_true (a b : double) : a <= b -> Rle_bool a b = true.
Proof. intros H. unfold Rle_bool. destruct (Rle_dec a b); tauto. Qed.

Lemma uniformReal_eq (lo hi : double) (g : RNG) :
  lo <= hi ->
  uniformReal lo hi g = Ok ((hi - lo) * draw g + lo, advance g).
Proof.
  intros H. unfold uniformReal, bind.
  rewrite (Rle_bool_true _ _ H), assert_true, uniDist_generator_eq.
  reflexivity.
Qed.

Lemma uniformReal_closed (lo hi u : double) :
  lo <= hi -> 0 <= u < 1 ->
  lo <= (hi - lo) * u + lo <= hi /\ (lo < hi -> (hi - lo) * u + lo < hi).
Proof. intros H [H0 H1]. repeat split; try intros Hlt; nra. Qed.

Lemma Int_part_IZR (z : Z) : Int_part (IZR z) = z.
Proof. symmetry. apply Int_part_spec. lra. Qed.

Lemma Int_part_bounds (x : double) :
  IZR (Int_part x) <= x < IZR (Int_part x) + 1.
Proof. destruct (base_Int_part x). lra. Qed.

Lemma trunc_IZR (z : Z) : trunc (IZR z) = z.
Proof.
  unfold trunc. destruct (Rle_dec 0 (IZR z)).
  - apply Int_part_IZR.
  - rewrite <- opp_IZR, Int_part_IZR. lia.
Qed.

Lemma int_of_double_floor (x : double) :
  in_int (Int_part x) -> int_of_double (floor x) = Ok (Int_part x).
Proof.
  intros [Hlo Hhi]. unfold int_of_double, floor. rewrite trunc_IZR.
  apply Z.leb_le in Hlo. apply Z.leb_le in Hhi. rewrite Hlo, Hhi.
  reflexivity.
Qed.

Lemma DBL_MAX_large : 4294967296 <= DBL_MAX.
Proof. unfold DBL_MAX. apply IZR_le. vm_compute. discriminate. Qed.

Lemma finite_width_small (lo up : double) :
  Rabs lo <= 2147483648 -> Rabs up <= 2147483648 -> finite_width lo up.
Proof.
  intros Hl Hu. pose proof DBL_MAX_large as HD.
  unfold finite_width. repeat split; try lra.
  unfold Rabs in *.
  destruct (Rcase_abs lo), (Rcase_abs up), (Rcase_abs (up - lo)); lra.
Qed.

(** C4, as the code has it.  For finite [lo <= hi] whose difference does
    not overflow, [uniformReal(lo, hi)] returns [lo + (hi - lo) * u] for
    the draw [u] of [uniform01()], and the value lies in the closed
    interval [[lo, hi]]; for [lo = hi] it is [lo]. *)
Theorem uniformReal_range (lo hi : double) (g : RNG) :
  lo <= hi -> finite_width lo hi ->
  let x := lo + (hi - lo) * draw g in
  uniform01 g = Ok (draw g, advance g) /\
  uniformReal lo hi g = Ok (x, advance g) /\
  lo <= x <= hi /\ (lo = hi -> x = lo).
Proof.
  intros H _ x.
  assert (Ex : x = (hi - lo) * draw g + lo) by (unfold x; ring).
  split; [apply uniform01_eq|].
  split; [rewrite Ex; apply uniformReal_eq; exact H|].
  destruct (uniformReal_closed lo hi (draw g) H (draw_unit g)) as [Hc _].
  rewrite <- Ex in Hc. split; [exact Hc|]. intros E. lra.
Qed.

End RNG_facts.

(** The assertion of [uniformReal] in the two builds, on an engine whose
    draws are 1/2. *)
Example uniformReal_asserts_in_debug :
  @uniformReal midpoint_random debug_build 1 0 (fresh midpoint_random 0%nat)
  = Err AssertionFailed.
Proof.
  unfold uniformReal, bind, assert_, Rle_bool.
  destruct (Rle_dec 1 0) as [H|H]; [lra|reflexivity].
Qed.

Example uniformReal_runs_in_release :
  @uniformReal midpoint_random release_build 1 0 (fresh midpoint_random 0%nat)
  = Ok ((0 - 1) * (1 / 2) + 1, fresh midpoint_random 1%nat).
Proof. reflexivity. Qed.

Example update_in_range : update 1 9 [1; 2; 3] = [1; 9; 3].
Proof. reflexivity. Qed.

Example coeff_past_end_checked :
  @coeff checked_vectors 2 [1; 3] 2 = Err (OutOfRange 2 2).
Proof. reflexivity. Qed.

(** C3 does not hold of the code.  In binary64,
    [uniformInt(INT_MAX, INT_MAX)] on the largest draw: [uniformReal]
    rounds to 2147483648, the floor is no [int], and the conversion is
    undefined before the clamp is reached, so no value of
    [[INT_MAX, INT_MAX]] comes back.  Below [INT_MAX] the clamp does its
    work: [uniformReal(4, 7)] rounds to 7 and [uniformInt(4, 6)] returns
    6. *)
Theorem uniformInt_overflows_at_INT_MAX :
  Binary64.uniformReal false (Binary64.of_int INT_MAX)
    (PrimFloat.add (Binary64.of_int INT_MAX) (Binary64.of_int 1))
    Binary64.u_max
  = Ok (Binary64.of_int 2147483648) /\
  Binary64.uniformInt false INT_MAX INT_MAX Binary64.u_max
  = Err NotRepresentable /\
  Binary64.uniformReal false (Binary64.of_int 4) (Binary64.of_int 7)
    Binary64.u_max
  = Ok (Binary64.of_int 7) /\
  Binary64.uniformInt false 4 6 Binary64.u_max = Ok 6%Z.
Proof. repeat split; vm_compute; reflexivity. Qed.

(** C4 fails where the bounds meet: [uniformReal(0, 0)] passes the
    assertion and returns 0, and no double lies in [[0, 0)].  In binary64
    it fails between distinct bounds too: [uniformReal(1, 2)] on the
    largest draw rounds to 2, and [uniformReal(-DBL_MAX, DBL_MAX)]
    overflows to infinity. *)
Lemma uniformReal_equal_bounds :
  (0 <= 0 /\
   exists (x : double) (g' : RNG),
     @uniformReal zero_random debug_build 0 0 (fresh zero_random 0%nat)
     = Ok (x, g') /\
     ~ (0 <= x < 0)) /\
  (Binary64.uniformReal false (Binary64.of_int 1) (Binary64.of_int 2)
     Binary64.u_max
   = Ok (Binary64.of_int 2) /\
   PrimFloat.ltb (Binary64.of_int 2) (Binary64.of_int 2) = false) /\
  Binary64.uniformReal false (PrimFloat.opp Binary64.dbl_max)
    Binary64.dbl_max Binary64.half
  = Ok PrimFloat.infinity.
Proof.
  split; [|split; [split|]]; try (vm_compute; reflexivity).
  split; [lra|].
  eexists; eexists; split.
  - apply (@uniformReal_eq zero_random debug_build 0 0). lra.
  - lra.
Qed.

Lemma uniformReal_range_witness :
  0 <= 1 /\ finite_width 0 1 /\
  let g := fresh midpoint_random 0%nat in
  let x := 0 + (1 - 0) * @draw midpoint_random g in
  @uniform01 midpoint_random g = Ok (draw g, advance g) /\
  @uniformReal midpoint_random debug_build 0 1 g = Ok (x, advance g) /\
  0 <= x <= 1 /\ (0 = 1 -> x = 0).
Proof.
  assert (HW : finite_width 0 1)
    by (apply finite_width_small; rewrite Rabs_pos_eq; lra).
  split; [lra|]. split; [exact HW|].
  apply (@uniformReal_range midpoint_random debug_build 0 1
           (fresh midpoint_random 0%nat)); [lra|exact HW].
Defined.

(** ** Vectors and calls through a sampler *)

Lemma nth_error_middle (l1 l2 : VectorNd) (a : FCL_REAL) :
  nth_error (l1 ++ a :: l2) (length l1) = Some a.
Proof. induction l1 as [|b l1 IH]; simpl; [reflexivity|exact IH]. Qed.

Lemma update_middle (q1 q2 : VectorNd) (x y : FCL_REAL) :
  update (length q1) x (q1 ++ y :: q2) = q1 ++ x :: q2.
Proof.
  induction q1 as [|b q1 IH]; simpl; [reflexivity|].
  rewrite IH. reflexivity.
Qed.

Lemma coeff_middle {vec : VectorType} (N i : nat) (l1 l2 : VectorNd)
  (a : FCL_REAL) :
  length l1 = i -> (i < N)%nat -> coeff N (l1 ++ a :: l2) i = Ok a.
Proof.
  intros E H. subst i. unfold coeff. apply Nat.ltb_lt in H. rewrite H.
  rewrite nth_error_middle. reflexivity.
Qed.

Lemma set_coeff_middle (N i : nat) (q1 q2 : VectorNd) (x y : FCL_REAL) :
  length q1 = i -> (i < N)%nat ->
  set_coeff N (q1 ++ y :: q2) i x = Ok (q1 ++ x :: q2).
Proof.
  intros E H. subst i. unfold set_coeff. apply Nat.ltb_lt in H. rewrite H.
  rewrite update_middle. reflexivity.
Qed.

Lemma length_zero_nil (v : VectorNd) : length v = 0%nat -> v = [].
Proof. destruct v; simpl; [reflexivity|discriminate]. Qed.

Lemma box_draws_cons {std : StdRandom} {build : Build}
  (lo up : double) (lower upper : list double) (g : RNG) :
  box_draws (lo :: lower) (up :: upper) g =
  match uniformReal lo up g with
  | Ok (x, g1) =>
      match box_draws lower upper g1 with
      | Ok (xs, g2) => Ok (x :: xs, g2)
      | Err e => Err e
      end
  | Err e => Err e
  end.
Proof.
  simpl. unfold bind. destruct (uniformReal lo up g) as [[x g1]|e];
    reflexivity.
Qed.

Lemma box_draws_eq {std : StdRandom} {build : Build}
  (lower upper : list double) :
  Forall2 Rle lower upper ->
  forall g : RNG,
    box_draws lower upper g
    = Ok (box_point lower upper g, advance_n (length lower) g).
Proof.
  induction 1 as [|lo up lower upper Hle _ IH]; intros g.
  - reflexivity.
  - rewrite box_draws_cons, (uniformReal_eq lo up g Hle), IH. reflexivity.
Qed.

Lemma box_point_length {std : StdRandom} (lower upper : list double) :
  length upper = length lower ->
  forall g : RNG, length (box_point lower upper g) = length lower.
Proof.
  revert upper. induction lower as [|lo lower IH]; intros [|up upper] E g;
    simpl in *; try discriminate; [reflexivity|].
  rewrite IH; [reflexivity|congruence].
Qed.

Lemma box_point_nth {std : StdRandom} (lower upper : list double) :
  Forall2 Rle lower upper ->
  forall (i : nat) (g : RNG),
    (i < length lower)%nat ->
    nth i lower 0 <= nth i upper 0 /\
    nth i (box_point lower upper g) 0
    = (nth i upper 0 - nth i lower 0) * draw (advance_n i g) + nth i lower 0.
Proof.
  induction 1 as [|lo up lower upper Hle _ IH]; intros i g Hi.
  - simpl in Hi. lia.
  - destruct i as [|i]; simpl.
    + split; [exact Hle|reflexivity].
    + apply IH. simpl in Hi. lia.
Qed.

(** ** SamplerR *)

Section SamplerR_facts.
Context {std : StdRandom} {build : Build} {vec : VectorType}.

Import SamplerR.

Lemma SamplerR_sample_body (N i : nat) (l1 l2 u1 u2 q1 q2 : VectorNd)
  (l u y : FCL_REAL) (this : SamplerR.t) :
  length l1 = i -> length u1 = i -> length q1 = i -> (i < N)%nat ->
  lower_bound this = l1 ++ l :: l2 -> upper_bound this = u1 ++ u :: u2 ->
  sample_body N i (q1 ++ y :: q2) this =
  match uniformReal l u (rng (base this)) with
  | Ok (x, g) => Ok (q1 ++ x :: q2, with_base {| rng := g |} this)
  | Err e => Err e
  end.
Proof.
  intros Hl1 Hu1 Hq1 Hi El Eu.
  unfold sample_body, bind, member_coeff, bind, member, lift.
  rewrite El, (coeff_middle N i l1 l2 l Hl1 Hi).
  rewrite Eu, (coeff_middle N i u1 u2 u Hu1 Hi).
  unfold rng_call.
  destruct (uniformReal l u (rng (base this))) as [[x g]|e]; [|reflexivity].
  unfold assign, lift. rewrite (set_coeff_middle N i q1 q2 x y Hq1 Hi).
  reflexivity.
Qed.

Lemma SamplerR_sample_loop (N : nat) :
  forall (l2 u2 q2 l1 u1 q1 : VectorNd) (i : nat) (this : SamplerR.t),
    length u2 = length l2 -> length q2 = length l2 ->
    length l1 = i -> length u1 = i -> length q1 = i ->
    lower_bound this = l1 ++ l2 -> upper_bound this = u1 ++ u2 ->
    N = (i + length l2)%nat ->
    for_ (length l2) i (sample_body N) (q1 ++ q2) this
    = match box_draws l2 u2 (rng (base this)) with
      | Ok (xs, g) => Ok (q1 ++ xs, with_base {| rng := g |} this)
      | Err e => Err e
      end.
Proof.
  induction l2 as [|l l2 IH];
    intros u2 q2 l1 u1 q1 i this Hu Hq Hl1 Hu1 Hq1 El Eu EN.
  - apply length_zero_nil in Hu, Hq. subst u2 q2. simpl.
    unfold ret. destruct this as [[g] lo up]. reflexivity.
  - destruct u2 as [|u u2]; [discriminate Hu|].
    destruct q2 as [|y q2]; [discriminate Hq|].
    simpl in Hu, Hq, EN.
    assert (Hi : (i < N)%nat) by lia.
    simpl for_. unfold bind at 1.
    rewrite (SamplerR_sample_body N i l1 l2 u1 u2 q1 q2 l u y this
               Hl1 Hu1 Hq1 Hi El Eu).
    rewrite box_draws_cons.
    destruct (uniformReal l u (rng (base this))) as [[x g1]|e]; [|reflexivity].
    assert (Eq : q1 ++ x :: q2 = (q1 ++ [x]) ++ q2)
      by (rewrite <- app_assoc; reflexivity).
    rewrite Eq.
    rewrite (IH u2 q2 (l1 ++ [l]) (u1 ++ [u]) (q1 ++ [x]) (S i)
               (with_base {| rng := g1 |} this));
      try (rewrite ?length_app; simpl; lia).
    + simpl. destruct (box_draws l2 u2 g1) as [[xs g2]|e]; [|reflexivity].
      rewrite <- app_assoc. reflexivity.
    + simpl. rewrite El, <- app_assoc. reflexivity.
    + simpl. rewrite Eu, <- app_assoc. reflexivity.
Qed.

Lemma SamplerR_sample_eq (N : nat) (this : SamplerR.t) :
  length (lower_bound this) = N -> length (upper_bound this) = N ->
  sample N this
  = rng_call (box_draws (lower_bound this) (upper_bound this)) this.
Proof.
  intros Hl Hu. unfold sample.
  pose proof (SamplerR_sample_loop N (lower_bound this) (upper_bound this)
                (VectorNd_init N) [] [] [] 0%nat this) as L.
  simpl in L. rewrite Hl in L.
  rewrite L; auto using VectorNd_init_size.
Qed.

(** C5, as the code has it.  With [N]-element bounds that are finite,
    [lower_bound[i] <= upper_bound[i]] and no difference overflowing,
    [sample()] is the draw of [uniformReal(lower_bound[i],
    upper_bound[i])] for [i = 0 .. N-1] in index order, each coordinate
    on its own: it returns, component [i] is scaled from the [i]-th next
    draw of the engine by the bounds of index [i] alone, and lies in the
    closed interval [[lower_bound[i], upper_bound[i]]]. *)
Theorem SamplerR_sample_box (N : nat) (this : SamplerR.t) :
  length (lower_bound this) = N ->
  Forall2 Rle (lower_bound this) (upper_bound this) ->
  Forall2 finite_width (lower_bound this) (upper_bound this) ->
  let g := rng (base this) in
  sample N this
  = rng_call (box_draws (lower_bound this) (upper_bound this)) this /\
  exists q : VectorNd,
    sample N this = Ok (q, with_base {| rng := advance_n N g |} this) /\
    length q = N /\
    forall i : nat,
      (i < N)%nat ->
      let lo := nth i (lower_bound this) 0 in
      let up := nth i (upper_bound this) 0 in
      nth i q 0 = (up - lo) * draw (advance_n i g) + lo /\
      lo <= nth i q 0 <= up.
Proof.
  intros Hl HF _ g.
  assert (Hu : length (upper_bound this) = N)
    by (rewrite <- Hl; symmetry; apply (Forall2_length HF)).
  pose proof (SamplerR_sample_eq N this Hl Hu) as E.
  split; [exact E|].
  exists (box_point (lower_bound this) (upper_bound this) g).
  split; [|split].
  - rewrite E. unfold rng_call. fold g. rewrite (box_draws_eq _ _ HF g).
    rewrite Hl. reflexivity.
  - rewrite box_point_length; congruence.
  - intros i Hi lo up. rewrite <- Hl in Hi.
    destruct (box_point_nth _ _ HF i g Hi) as [Hle Hn].
    fold lo up in Hle, Hn. rewrite Hn.
    split; [reflexivity|].
    apply uniformReal_closed; [exact Hle|apply draw_unit].
Qed.

(** C9.  A box sampler constructed with the bounds and a
    default-constructed one whose bounds are then set by [setBound] are
    the same object when their engines are in the same state, and their
    first [sample()] has the same outcome. *)
Theorem SamplerR_setBound_as_constructed (N : nat) (g : RNG)
  (lower upper : VectorNd) :
  setBound lower upper (default_ctor N g) = Ok (tt, ctor g lower upper) /\
  (_ <- setBound lower upper ;; sample N) (default_ctor N g)
  = sample N (ctor g lower upper).
Proof. split; reflexivity. Qed.

End SamplerR_facts.

(** C5 fails where a lower and an upper bound meet: the sampler of the
    box [[0, 0]] returns the point 0, and no double lies in [[0, 0)].  In
    binary64 it fails between distinct bounds too: the coordinate draw
    [uniformReal(1, 3)] on the largest draw rounds to 3. *)
Lemma SamplerR_equal_bounds :
  let this := @SamplerR.ctor zero_random (fresh zero_random 0%nat) [0] [0] in
  (Forall2 Rle (SamplerR.lower_bound this) (SamplerR.upper_bound this) /\
   exists (q : VectorNd) (this' : SamplerR.t),
     @SamplerR.sample zero_random debug_build checked_vectors 1 this
     = Ok (q, this') /\
     ~ (nth 0 (SamplerR.lower_bound this) 0 <= nth 0 q 0
        < nth 0 (SamplerR.upper_bound this) 0)) /\
  (Binary64.uniformReal false (Binary64.of_int 1) (Binary64.of_int 3)
     Binary64.u_max
   = Ok (Binary64.of_int 3) /\
   PrimFloat.ltb (Binary64.of_int 3) (Binary64.of_int 3) = false).
Proof.
  intros this.
  split; [|split; vm_compute; reflexivity].
  assert (HF : Forall2 Rle [0] [0])
    by (apply Forall2_cons; [lra|apply Forall2_nil]).
  split; [exact HF|].
  eexists; eexists; split.
  - rewrite (@SamplerR_sample_eq zero_random debug_build checked_vectors
               1%nat this eq_refl eq_refl).
    unfold rng_call.
    rewrite (@box_draws_eq zero_random debug_build [0] [0] HF).
    reflexivity.
  - simpl. lra.
Qed.

(** ** SamplerSE2 *)

(** Split every pending call on its outcome. *)
Ltac outcomes :=
  repeat
    (match goal with
     | |- context [uniformReal ?a ?b ?g] =>
         destruct (uniformReal a b g) as [[? ?]|?]
     | |- context [past_end ?n ?v ?i] =>
         destruct (past_end n v i) as [?|?]
     | |- context [quaternion ?g] =>
         destruct (quaternion g) as [[[[[? ?] ?] ?] ?]|?]
     | |- context [disk ?a ?b ?g] =>
         destruct (disk a b g) as [[[? ?] ?]|?]
     | |- context [ball ?a ?b ?g] =>
         destruct (ball a b g) as [[[[? ?] ?] ?]|?]
     end; simpl);
  try reflexivity.

Section SamplerSE2_facts.
Context {std : StdRandom} {build : Build}.

Import SamplerSE2.

Lemma SamplerSE2_sample_eq {vec : VectorType} (this : SamplerSE2.t)
  (l0 l1 : FCL_REAL) :
  lower_bound this = [l0; l1] ->
  sample this
  = (x <- rng_call (uniformReal l0 l1) ;;
     b <- lift (past_end 2 [l0; l1] 2) ;;
     y <- rng_call (uniformReal l1 b) ;;
     h <- rng_call (uniformReal (- PI) PI) ;;
     ret [x; y; h]) this.
Proof.
  intros El. unfold sample.
  pose proof (VectorNd_init_size 3) as H3.
  destruct (VectorNd_init 3) as [|a0 [|a1 [|a2 [|a3 v]]]]; try discriminate H3.
  destruct this as [[g] lo up]. simpl in El. subst lo.
  unfold bind, member_coeff, bind, member, lift, coeff, assign, lift,
    set_coeff, rng_call, ret.
  simpl. outcomes.
Qed.

(** C2.  On a sampler whose [lower_bound] holds the two elements
    [l0, l1], [sample()] draws x by [uniformReal(l0, l1)], with
    [lower_bound[1]] as the upper bound, and draws y by
    [uniformReal(l1, lower_bound[2])]: the read of index 2 is not served
    by the two elements but by whatever the vector type does past the
    end, and with checked vectors the call faults there as soon as the
    draw of x went through. *)
Theorem SamplerSE2_sample_reads_past_lower_bound (this : SamplerSE2.t)
  (l0 l1 : FCL_REAL) :
  lower_bound this = [l0; l1] ->
  (forall vec : VectorType,
     @coeff vec 2 (lower_bound this) 2 = @past_end vec 2 [l0; l1] 2 /\
     @sample std build vec this
     = (x <- rng_call (uniformReal l0 l1) ;;
        b <- lift (@past_end vec 2 [l0; l1] 2) ;;
        y <- rng_call (uniformReal l1 b) ;;
        h <- rng_call (uniformReal (- PI) PI) ;;
        ret [x; y; h]) this) /\
  (forall (x : FCL_REAL) (this1 : SamplerSE2.t),
     rng_call (uniformReal l0 l1) this = Ok (x, this1) ->
     @sample std build checked_vectors this = Err (OutOfRange 2 2)).
Proof.
  intros El. split.
  - intros vec. split.
    + rewrite El. reflexivity.
    + apply SamplerSE2_sample_eq. exact El.
  - intros x this1 Hx.
    rewrite (@SamplerSE2_sample_eq checked_vectors this l0 l1 El).
    unfold bind at 1. rewrite Hx. reflexivity.
Qed.

End SamplerSE2_facts.

(** ** SamplerSE2_disk *)

Lemma heading_range {std : StdRandom} {build : Build} (g : RNG) :
  let h := (PI - - PI) * draw g + - PI in
  uniformReal (- PI) PI g = Ok (h, advance g) /\ - PI <= h < PI.
Proof.
  intros h. pose proof PI_RGT_0 as Hpi.
  assert (Hle : - PI <= PI) by lra.
  split; [apply uniformReal_eq; exact Hle|].
  destruct (uniformReal_closed (- PI) PI (draw g) Hle (draw_unit g))
    as [[H1 _] H2].
  split; [exact H1|apply H2; lra].
Qed.

Section SamplerSE2_disk_facts.
Context {std : StdRandom} {build : Build} {vec : VectorType}.

Import SamplerSE2_disk.

Lemma SamplerSE2_disk_sample_eq (this : SamplerSE2_disk.t) :
  sample this
  = (p <- rng_call (disk (r_min this) (r_max this)) ;;
     h <- rng_call (uniformReal (- PI) PI) ;;
     ret [fst p + fst (c this) - fst (cref this);
          snd p + snd (c this) - snd (cref this);
          h]) this.
Proof.
  unfold sample.
  pose proof (VectorNd_init_size 3) as H3.
  destruct (VectorNd_init 3) as [|a0 [|a1 [|a2 [|a3 v]]]]; try discriminate H3.
  destruct this as [[g] c_ cref_ rmin rmax].
  unfold bind, member, lift, assign, lift, set_coeff, rng_call, ret.
  simpl. outcomes.
Qed.

(** C7.  Whatever point [(x, y)] the call [rng.disk(r_min, r_max)]
    yields, [sample()] returns the 3-vector
    [(x + c[0] - cref[0], y + c[1] - cref[1], h)], where [h] is the draw of
    [uniformReal(-pi, pi)] on the engine that [disk] left and lies in
    [[-pi, pi)]; a fault of [disk] is the fault of [sample()]; and [disk]
    yields a point whenever [r_min^2 <= r_max^2]. *)
Theorem SamplerSE2_disk_sample_pose (this : SamplerSE2_disk.t) :
  let g := rng (base this) in
  (forall (x y : FCL_REAL) (g1 : RNG),
     disk (r_min this) (r_max this) g = Ok ((x, y), g1) ->
     let h := (PI - - PI) * draw g1 + - PI in
     uniformReal (- PI) PI g1 = Ok (h, advance g1) /\
     sample this
     = Ok ([x + fst (c this) - fst (cref this);
            y + snd (c this) - snd (cref this);
            h],
           with_base {| rng := advance g1 |} this) /\
     - PI <= h < PI) /\
  (forall e : fault,
     disk (r_min this) (r_max this) g = Err e -> sample this = Err e) /\
  (r_min this * r_min this <= r_max this * r_max this ->
   exists x y : FCL_REAL,
     disk (r_min this) (r_max this) g = Ok ((x, y), advance_n 2 g)).
Proof.
  intros g. split; [|split].
  - intros x y g1 Hd h.
    destruct (heading_range g1) as [Hh Hr]. fold h in Hh, Hr.
    split; [exact Hh|]. split; [|exact Hr].
    rewrite SamplerSE2_disk_sample_eq.
    unfold bind at 1. unfold rng_call at 1. fold g. rewrite Hd.
    unfold bind at 1. unfold rng_call at 1.
    destruct this as [[g0] c_ cref_ rmin rmax]. simpl.
    simpl in Hh. rewrite Hh. reflexivity.
  - intros e Hd. rewrite SamplerSE2_disk_sample_eq.
    unfold bind at 1. unfold rng_call at 1. fold g. rewrite Hd. reflexivity.
  - intros Hr. pose proof PI_RGT_0 as Hpi.
    assert (H0 : 0 <= 2 * PI) by lra.
    unfold disk, bind. rewrite (uniformReal_eq _ _ g H0).
    rewrite (uniformReal_eq _ _ (advance g) Hr).
    eexists; eexists; reflexivity.
Qed.

End SamplerSE2_disk_facts.

(** ** SamplerSE3Quat *)

Lemma quaternion_eq {std : StdRandom} (g : RNG) :
  let u1 := draw g in
  let u2 := draw (advance g) in
  let u3 := draw (advance_n 2 g) in
  quaternion g
  = Ok ((sqrt (1 - u1) * sin (2 * PI * u2),
         sqrt (1 - u1) * cos (2 * PI * u2),
         sqrt u1 * sin (2 * PI * u3),
         sqrt u1 * cos (2 * PI * u3)),
        advance_n 3 g).
Proof.
  intros u1 u2 u3. unfold quaternion, bind.
  rewrite !uniform01_eq. reflexivity.
Qed.

Lemma unit_norm (u a b : R) :
  0 <= u < 1 ->
  let x := sqrt (1 - u) * sin a in
  let y := sqrt (1 - u) * cos a in
  let z := sqrt u * sin b in
  let w := sqrt u * cos b in
  x * x + y * y + z * z + w * w = 1.
Proof.
  intros [H0 H1] x y z w. unfold x, y, z, w.
  pose proof (sin2_cos2 a) as Ha. pose proof (sin2_cos2 b) as Hb.
  unfold Rsqr in Ha, Hb.
  assert (S1 : sqrt (1 - u) * sqrt (1 - u) = 1 - u)
    by (apply sqrt_sqrt; lra).
  assert (S2 : sqrt u * sqrt u = u) by (apply sqrt_sqrt; lra).
  replace (sqrt (1 - u) * sin a * (sqrt (1 - u) * sin a)
           + sqrt (1 - u) * cos a * (sqrt (1 - u) * cos a)
           + sqrt u * sin b * (sqrt u * sin b)
           + sqrt u * cos b * (sqrt u * cos b))
    with (sqrt (1 - u) * sqrt (1 - u) * (sin a * sin a + cos a * cos a)
          + sqrt u * sqrt u * (sin b * sin b + cos b * cos b)) by ring.
  rewrite S1, S2, Ha, Hb. ring.
Qed.

Section SamplerSE3Quat_facts.
Context {std : StdRandom} {build : Build} {vec : VectorType}.

Import SamplerSE3Quat.

Lemma SamplerSE3Quat_sample_eq (this : SamplerSE3Quat.t)
  (l0 l1 l2 u0 u1 u2 : FCL_REAL) :
  lower_bound this = [l0; l1; l2] -> upper_bound this = [u0; u1; u2] ->
  sample this
  = (x <- rng_call (uniformReal l0 u0) ;;
     y <- rng_call (uniformReal l1 u1) ;;
     z <- rng_call (uniformReal l2 u2) ;;
     s <- rng_call quaternion ;;
     ret [x; y; z;
          fst (fst (fst s)); snd (fst (fst s)); snd (fst s); snd s]) this.
Proof.
  intros El Eu. unfold sample.
  pose proof (VectorNd_init_size 7) as H7.
  destruct (VectorNd_init 7)
    as [|a0 [|a1 [|a2 [|a3 [|a4 [|a5 [|a6 [|a7 v]]]]]]]];
    try discriminate H7.
  destruct this as [[g] lo up]. simpl in El, Eu. subst lo up.
  unfold bind, member_coeff, bind, member, lift, coeff, assign, lift,
    set_coeff, rng_call, ret.
  simpl. outcomes.
Qed.

(** C6, as the code has it.  With three-element bounds that are finite,
    [lower_bound[i] <= upper_bound[i]] and no difference overflowing,
    [sample()] returns a 7-vector: its first three components are the
    draws of [uniformReal(lower_bound[i], upper_bound[i])] in index
    order, each in the closed interval of its bounds; its last four are,
    in order, the components (x, y, z, w) of the quaternion the engine
    draws next, and the sum of their squares is within 1e-9 of 1. *)
Theorem SamplerSE3Quat_sample_pose (this : SamplerSE3Quat.t)
  (l0 l1 l2 u0 u1 u2 : FCL_REAL) :
  lower_bound this = [l0; l1; l2] -> upper_bound this = [u0; u1; u2] ->
  l0 <= u0 -> l1 <= u1 -> l2 <= u2 ->
  finite_width l0 u0 -> finite_width l1 u1 -> finite_width l2 u2 ->
  let g := rng (base this) in
  exists x y z s0 s1 s2 s3 : FCL_REAL,
    box_draws [l0; l1; l2] [u0; u1; u2] g = Ok ([x; y; z], advance_n 3 g) /\
    quaternion (advance_n 3 g) = Ok ((s0, s1, s2, s3), advance_n 6 g) /\
    sample this
    = Ok ([x; y; z; s0; s1; s2; s3],
          with_base {| rng := advance_n 6 g |} this) /\
    l0 <= x <= u0 /\ l1 <= y <= u1 /\ l2 <= z <= u2 /\
    Rabs (s0 * s0 + s1 * s1 + s2 * s2 + s3 * s3 - 1) < / 1000000000.
Proof.
  intros El Eu H0 H1 H2 _ _ _ g.
  assert (HF : Forall2 Rle [l0; l1; l2] [u0; u1; u2])
    by (repeat (apply Forall2_cons; [assumption|]); apply Forall2_nil).
  pose proof (quaternion_eq (advance_n 3 g)) as Hq. cbv zeta in Hq.
  pose proof (unit_norm (draw (advance_n 3 g))
                (2 * PI * draw (advance (advance_n 3 g)))
                (2 * PI * draw (advance_n 2 (advance_n 3 g)))
                (draw_unit _)) as Hn.
  cbv zeta in Hn.
  do 7 eexists.
  split; [exact (box_draws_eq _ _ HF g)|].
  split; [exact Hq|].
  split; [|split; [|split; [|split]]].
  - rewrite (SamplerSE3Quat_sample_eq this l0 l1 l2 u0 u1 u2 El Eu).
    unfold bind, rng_call. fold g.
    destruct this as [[g0] lo up]. simpl in g. simpl.
    rewrite (uniformReal_eq l0 u0 g H0). simpl.
    rewrite (uniformReal_eq l1 u1 (advance g) H1). simpl.
    rewrite (uniformReal_eq l2 u2 (advance (advance g)) H2). simpl.
    simpl in Hq. rewrite Hq. reflexivity.
  - apply uniformReal_closed; [exact H0|apply draw_unit].
  - apply uniformReal_closed; [exact H1|apply draw_unit].
  - apply uniformReal_closed; [exact H2|apply draw_unit].
  - rewrite Hn. replace (1 - 1) with 0 by ring. rewrite Rabs_R0. lra.
Qed.

End SamplerSE3Quat_facts.

(** C6 fails where a lower and an upper bound meet: the sampler of the
    box [[0, 0]^3] returns a position whose first component is 0, and no
    double lies in [[0, 0)].  In binary64 it fails between distinct
    bounds too: the coordinate draw [uniformReal(1, 2)] on the largest
    draw rounds to 2. *)
Lemma SamplerSE3Quat_equal_bounds :
  let this :=
    @SamplerSE3Quat.ctor zero_random (fresh zero_random 0%nat)
      [0; 0; 0] [0; 0; 0] in
  (Forall2 Rle (SamplerSE3Quat.lower_bound this)
     (SamplerSE3Quat.upper_bound this) /\
   exists (q : VectorNd) (this' : SamplerSE3Quat.t),
     @SamplerSE3Quat.sample zero_random debug_build checked_vectors this
     = Ok (q, this') /\
     ~ (nth 0 (SamplerSE3Quat.lower_bound this) 0 <= nth 0 q 0
        < nth 0 (SamplerSE3Quat.upper_bound this) 0)) /\
  (Binary64.uniformReal false (Binary64.of_int 1) (Binary64.of_int 2)
     Binary64.u_max
   = Ok (Binary64.of_int 2) /\
   PrimFloat.ltb (Binary64.of_int 2) (Binary64.of_int 2) = false).
Proof.
  intros this.
  split; [|split; vm_compute; reflexivity].
  split; [repeat (apply Forall2_cons; [lra|]); apply Forall2_nil|].
  eexists; eexists; split.
  - rewrite (@SamplerSE3Quat_sample_eq zero_random debug_build
               checked_vectors this 0 0 0 0 0 0 eq_refl eq_refl).
    unfold bind, rng_call. simpl.
    do 3 (rewrite (@uniformReal_eq zero_random debug_build 0 0) by lra;
          simpl).
    reflexivity.
  - simpl. lra.
Qed.

(** ** What a call leaves untouched *)

Section Keeps.
Context {std : StdRandom} {T : Type} {D : Derived T} {B : Type}.
Variable f : T -> B.
Hypothesis f_with_base : forall b this, f (with_base b this) = f this.

Lemma keeps_ret {A : Type} (a : A) : keeps f (ret a).
Proof. intros this a' this' H. inversion H. reflexivity. Qed.

Lemma keeps_lift {A : Type} (r : result A) : keeps f (lift r).
Proof.
  intros this a this' H. unfold lift in H. destruct r; inversion H.
  reflexivity.
Qed.

Lemma keeps_member {A : Type} (field : T -> A) : keeps f (member field).
Proof. intros this a this' H. inversion H. reflexivity. Qed.

Lemma keeps_bind {A C : Type} (m : M T A) (k : A -> M T C) :
  keeps f m -> (forall a, keeps f (k a)) -> keeps f (bind m k).
Proof.
  intros Hm Hk this c this' H. unfold bind in H.
  destruct (m this) as [[a this1]|e] eqn:E; [|discriminate H].
  rewrite (Hk a this1 c this' H). exact (Hm this a this1 E).
Qed.

Lemma keeps_member_coeff {vec : VectorType} (N : nat) (field : T -> VectorNd)
  (i : nat) : keeps f (member_coeff N field i).
Proof.
  unfold member_coeff. apply keeps_bind; [apply keeps_member|].
  intros v. apply keeps_lift.
Qed.

Lemma keeps_assign (N : nat) (q : VectorNd) (i : nat) (x : FCL_REAL) :
  keeps f (assign N q i x).
Proof. unfold assign. apply keeps_lift. Qed.

Lemma keeps_rng_call {A : Type} (m : M RNG A) : keeps f (rng_call m).
Proof.
  intros this a this' H. unfold rng_call in H.
  destruct (m (rng (base this))) as [[a' r]|e]; inversion H.
  apply f_with_base.
Qed.

Lemma keeps_for {A : Type} (body : nat -> A -> M T A) :
  (forall i a, keeps f (body i a)) ->
  forall (n i0 : nat) (a : A), keeps f (for_ n i0 body a).
Proof.
  intros Hb. induction n as [|n IH]; intros i0 a; simpl.
  - apply keeps_ret.
  - apply keeps_bind; [apply Hb|]. intros a'. apply IH.
Qed.

End Keeps.

(** Decompose a member function into its calls. *)
Ltac keeps_steps :=
  cbv zeta;
  repeat
    first
      [ apply keeps_ret
      | apply keeps_member
      | apply keeps_member_coeff
      | apply keeps_assign
      | apply keeps_rng_call; intros; reflexivity
      | apply keeps_bind; [|intros]
      | match goal with
        | |- keeps _ (match ?p with _ => _ end) => destruct p
        end ].

Section Frame.
Context {std : StdRandom} {build : Build} {vec : VectorType}
  {ext : External}.

Lemma SamplerR_sample_keeps (N : nat) :
  keeps (fun this => (SamplerR.lower_bound this, SamplerR.upper_bound this))
    (SamplerR.sample N).
Proof.
  unfold SamplerR.sample. apply keeps_for. intros i q.
  unfold SamplerR.sample_body. keeps_steps.
Qed.

Lemma SamplerSE2_sample_keeps :
  keeps (fun this =>
           (SamplerSE2.lower_bound this, SamplerSE2.upper_bound this))
    SamplerSE2.sample.
Proof. unfold SamplerSE2.sample. keeps_steps. Qed.

Lemma SamplerSE2_disk_sample_keeps :
  keeps (fun this =>
           (SamplerSE2_disk.c this, SamplerSE2_disk.cref this,
            SamplerSE2_disk.r_min this, SamplerSE2_disk.r_max this))
    SamplerSE2_disk.sample.
Proof. unfold SamplerSE2_disk.sample. keeps_steps. Qed.

Lemma SamplerSE3Euler_sample_keeps :
  keeps (fun this =>
           (SamplerSE3Euler.lower_bound this,
            SamplerSE3Euler.upper_bound this))
    SamplerSE3Euler.sample.
Proof. unfold SamplerSE3Euler.sample. keeps_steps. Qed.

Lemma SamplerSE3Quat_sample_keeps :
  keeps (fun this =>
           (SamplerSE3Quat.lower_bound this, SamplerSE3Quat.upper_bound this))
    SamplerSE3Quat.sample.
Proof. unfold SamplerSE3Quat.sample. keeps_steps. Qed.

Lemma SamplerSE3Euler_ball_sample_keeps :
  keeps SamplerSE3Euler_ball.r SamplerSE3Euler_ball.sample.
Proof. unfold SamplerSE3Euler_ball.sample. keeps_steps. Qed.

Lemma SamplerSE3Quat_ball_sample_keeps :
  keeps SamplerSE3Quat_ball.r SamplerSE3Quat_ball.sample.
Proof. unfold SamplerSE3Quat_ball.sample. keeps_steps. Qed.

(** C8.  Whenever [sample()] returns, for each sampler of the family,
    the bound configuration of the object (lower_bound / upper_bound, or
    c / cref / r_min / r_max, or r) is what it was before the call, and
    the object differs from the one before the call in its engine
    only. *)
Theorem sample_changes_only_rng :
  (forall N : nat,
     frame (fun this =>
              (SamplerR.lower_bound this, SamplerR.upper_bound this))
       (SamplerR.sample N)) /\
  frame (fun this =>
           (SamplerSE2.lower_bound this, SamplerSE2.upper_bound this))
    SamplerSE2.sample /\
  frame (fun this =>
           (SamplerSE2_disk.c this, SamplerSE2_disk.cref this,
            SamplerSE2_disk.r_min this, SamplerSE2_disk.r_max this))
    SamplerSE2_disk.sample /\
  frame (fun this =>
           (SamplerSE3Euler.lower_bound this,
            SamplerSE3Euler.upper_bound this))
    SamplerSE3Euler.sample /\
  frame (fun this =>
           (SamplerSE3Quat.lower_bound this, SamplerSE3Quat.upper_bound this))
    SamplerSE3Quat.sample /\
  frame SamplerSE3Euler_ball.r SamplerSE3Euler_ball.sample /\
  frame SamplerSE3Quat_ball.r SamplerSE3Quat_ball.sample.
Proof.
  repeat split.
  - eapply SamplerR_sample_keeps; eassumption.
  - pose proof (SamplerR_sample_keeps N this a this' H) as K.
    destruct this, this'; simpl in *. congruence.
  - eapply SamplerSE2_sample_keeps; eassumption.
  - pose proof (SamplerSE2_sample_keeps this a this' H) as K.
    destruct this, this'; simpl in *. congruence.
  - eapply SamplerSE2_disk_sample_keeps; eassumption.
  - pose proof (SamplerSE2_disk_sample_keeps this a this' H) as K.
    destruct this, this'; simpl in *. congruence.
  - eapply SamplerSE3Euler_sample_keeps; eassumption.
  - pose proof (SamplerSE3Euler_sample_keeps this a this' H) as K.
    destruct this, this'; simpl in *. congruence.
  - eapply SamplerSE3Quat_sample_keeps; eassumption.
  - pose proof (SamplerSE3Quat_sample_keeps this a this' H) as K.
    destruct this, this'; simpl in *. congruence.
  - eapply SamplerSE3Euler_ball_sample_keeps; eassumption.
  - pose proof (SamplerSE3Euler_ball_sample_keeps this a this' H) as K.
    destruct this, this'; simpl in *. congruence.
  - eapply SamplerSE3Quat_ball_sample_keeps; eassumption.
  - pose proof (SamplerSE3Quat_ball_sample_keeps this a this' H) as K.
    destruct this, this'; simpl in *. congruence.
Qed.

End Frame.

(** ** Runs on the midpoint engine, debug build, checked vectors *)

Section Midpoint_runs.
#[local] Existing Instance midpoint_random.
#[local] Existing Instance debug_build.
#[local] Existing Instance checked_vectors.

(** C1 does not hold of the code.  The sampler of the box
    [[1, 2) x [3, 4)] on an engine whose draws are 1/2: with vectors that
    yield 5 past the end, [sample()] returns (2, 4, 0), with x outside
    [[1, 2)] and y outside [[3, 4)]; with checked vectors it faults on
    [lower_bound[2]] and returns nothing. *)
Theorem SamplerSE2_sample_off_box :
  let this := SamplerSE2.ctor (fresh midpoint_random 0%nat) [1; 3] [2; 4] in
  @SamplerSE2.sample midpoint_random debug_build (stray_vectors 5) this
  = Ok ([2; 4; 0], with_base {| rng := fresh midpoint_random 3%nat |} this) /\
  @SamplerSE2.sample midpoint_random debug_build checked_vectors this
  = Err (OutOfRange 2 2) /\
  ~ (nth 0 (SamplerSE2.lower_bound this) 0 <= 2
     < nth 0 (SamplerSE2.upper_bound this) 0) /\
  ~ (nth 1 (SamplerSE2.lower_bound this) 0 <= 4
     < nth 1 (SamplerSE2.upper_bound this) 0).
Proof.
  intros this.
  assert (Hx : forall g : RNG, uniformReal 1 3 g = Ok (2, advance g)).
  { intros g. rewrite uniformReal_eq by lra. unfold draw. simpl.
    repeat f_equal. lra. }
  assert (Hy : forall g : RNG, uniformReal 3 5 g = Ok (4, advance g)).
  { intros g. rewrite uniformReal_eq by lra. unfold draw. simpl.
    repeat f_equal. lra. }
  assert (Hh : forall g : RNG, uniformReal (- PI) PI g = Ok (0, advance g)).
  { intros g. destruct (heading_range g) as [E _].
    rewrite E. unfold draw. simpl. repeat f_equal. lra. }
  split; [|split; [|split]].
  - rewrite (@SamplerSE2_sample_eq _ _ (stray_vectors 5) this 1 3 eq_refl).
    unfold bind, rng_call, lift. simpl.
    rewrite Hx. simpl. rewrite Hy. simpl. rewrite Hh. reflexivity.
  - rewrite (@SamplerSE2_sample_eq _ _ checked_vectors this 1 3 eq_refl).
    unfold bind, rng_call, lift. simpl.
    rewrite Hx. reflexivity.
  - simpl. lra.
  - simpl. lra.
Qed.

Lemma SamplerR_sample_box_witness :
  let this := SamplerR.ctor (fresh midpoint_random 0%nat) [0; 1] [1; 3] in
  let g := rng (base this) in
  SamplerR.sample 2 this
  = rng_call
      (box_draws (SamplerR.lower_bound this) (SamplerR.upper_bound this))
      this /\
  exists q : VectorNd,
    SamplerR.sample 2 this
    = Ok (q, with_base {| rng := advance_n 2 g |} this) /\
    length q = 2%nat /\
    forall i : nat,
      (i < 2)%nat ->
      let lo := nth i (SamplerR.lower_bound this) 0 in
      let up := nth i (SamplerR.upper_bound this) 0 in
      nth i q 0 = (up - lo) * draw (advance_n i g) + lo /\
      lo <= nth i q 0 <= up.
Proof.
  intros this.
  apply (SamplerR_sample_box 2%nat this).
  - reflexivity.
  - simpl. repeat (apply Forall2_cons; [lra|]). apply Forall2_nil.
  - simpl.
    repeat (apply Forall2_cons;
            [apply finite_width_small; rewrite Rabs_pos_eq; lra|]).
    apply Forall2_nil.
Defined.

Lemma SamplerSE2_sample_reads_past_lower_bound_witness :
  let this := SamplerSE2.ctor (fresh midpoint_random 0%nat) [1; 3] [2; 4] in
  (forall vec : VectorType,
     @coeff vec 2 (SamplerSE2.lower_bound this) 2
     = @past_end vec 2 [1; 3] 2 /\
     @SamplerSE2.sample midpoint_random debug_build vec this
     = (x <- rng_call (uniformReal 1 3) ;;
        b <- lift (@past_end vec 2 [1; 3] 2) ;;
        y <- rng_call (uniformReal 3 b) ;;
        h <- rng_call (uniformReal (- PI) PI) ;;
        ret [x; y; h]) this) /\
  (forall (x : FCL_REAL) (this1 : SamplerSE2.t),
     rng_call (uniformReal 1 3) this = Ok (x, this1) ->
     @SamplerSE2.sample midpoint_random debug_build checked_vectors this
     = Err (OutOfRange 2 2)).
Proof.
  intros this.
  apply (SamplerSE2_sample_reads_past_lower_bound this 1 3).
  reflexivity.
Defined.

Lemma SamplerSE3Quat_sample_pose_witness :
  let this :=
    SamplerSE3Quat.ctor (fresh midpoint_random 0%nat) [0; 0; 0] [1; 1; 1] in
  let g := rng (base this) in
  exists x y z s0 s1 s2 s3 : FCL_REAL,
    box_draws [0; 0; 0] [1; 1; 1] g = Ok ([x; y; z], advance_n 3 g) /\
    quaternion (advance_n 3 g) = Ok ((s0, s1, s2, s3), advance_n 6 g) /\
    SamplerSE3Quat.sample this
    = Ok ([x; y; z; s0; s1; s2; s3],
          with_base {| rng := advance_n 6 g |} this) /\
    0 <= x <= 1 /\ 0 <= y <= 1 /\ 0 <= z <= 1 /\
    Rabs (s0 * s0 + s1 * s1 + s2 * s2 + s3 * s3 - 1) < / 1000000000.
Proof.
  intros this.
  apply (SamplerSE3Quat_sample_pose this 0 0 0 1 1 1);
    try reflexivity; try lra;
    apply finite_width_small; rewrite Rabs_pos_eq; lra.
Defined.

Lemma SamplerSE2_disk_sample_pose_witness :
  let this :=
    SamplerSE2_disk.ctor (fresh midpoint_random 0%nat) 10 20 1 2 0 0 in
  let g := rng (base this) in
  exists x y : FCL_REAL,
    disk 1 2 g = Ok ((x, y), advance_n 2 g) /\
    let h := (PI - - PI) * draw (advance_n 2 g) + - PI in
    SamplerSE2_disk.sample this
    = Ok ([x + 10 - 0; y + 20 - 0; h],
          with_base {| rng := advance_n 3 g |} this) /\
    - PI <= h < PI.
Proof.
  intros this g.
  destruct (SamplerSE2_disk_sample_pose this) as [H1 [_ H3]].
  destruct H3 as (x & y & Hd); [simpl; lra|].
  exists x, y. split; [exact Hd|].
  destruct (H1 x y _ Hd) as (_ & Hs & Hr).
  split; [exact Hs|exact Hr].
Defined.

Lemma sample_changes_only_rng_witness :
  let this := SamplerR.ctor (fresh midpoint_random 0%nat) [0; 1] [1; 3] in
  exists (q : VectorNd) (this' : SamplerR.t),
    SamplerR.sample 2 this = Ok (q, this') /\
    (SamplerR.lower_bound this', SamplerR.upper_bound this')
    = (SamplerR.lower_bound this, SamplerR.upper_bound this) /\
    this' = with_base (base this') this.
Proof.
  intros this.
  assert (HF : Forall2 Rle [0; 1] [1; 3])
    by (repeat (apply Forall2_cons; [lra|]); apply Forall2_nil).
  assert (E : SamplerR.sample 2 this
              = Ok (box_point [0; 1] [1; 3] (rng (base this)),
                    with_base {| rng := advance_n 2 (rng (base this)) |}
                      this)).
  { rewrite (SamplerR_sample_eq 2%nat this eq_refl eq_refl).
    unfold rng_call. simpl SamplerR.lower_bound. simpl SamplerR.upper_bound.
    rewrite (box_draws_eq _ _ HF). reflexivity. }
  eexists; eexists. split; [exact E|].
  destruct (@sample_changes_only_rng midpoint_random debug_build
              checked_vectors axis_external) as [HR _].
  exact (HR 2%nat this _ _ E).
Defined.

End Midpoint_runs.

(** * Further properties *)

(** ** uniformReal and uniformInt outside and at the edge of their bounds *)

Section RNG_edges.
Context {std : StdRandom} {build : Build}.

Lemma uniformReal_cases (lo hi : double) (g : RNG) :
  uniformReal lo hi g
  = if NDEBUG || Rle_bool lo hi
    then Ok ((hi - lo) * draw g + lo, advance g)
    else Err AssertionFailed.
Proof.
  unfold uniformReal, bind, assert_.
  destruct (NDEBUG || Rle_bool lo hi); [|reflexivity].
  rewrite uniDist_generator_eq. reflexivity.
Qed.

Lemma uniformReal_Ok_inv (lo hi x : double) (g g' : RNG) :
  uniformReal lo hi g = Ok (x, g') ->
  x = (hi - lo) * draw g + lo /\ g' = advance g /\
  (NDEBUG = true \/ lo <= hi).
Proof.
  rewrite uniformReal_cases. unfold Rle_bool.
  destruct NDEBUG; simpl.
  - intros H. inversion H. auto.
  - destruct (Rle_dec lo hi) as [Hle|Hgt]; intros H; inversion H. auto.
Qed.

Lemma Rle_bool_false (a b : double) : b < a -> Rle_bool a b = false.
Proof.
  intros H. unfold Rle_bool. destruct (Rle_dec a b); [lra|reflexivity].
Qed.

Lemma between_bounds (lo hi u : double) :
  0 <= u < 1 ->
  Rmin lo hi <= (hi - lo) * u + lo <= Rmax lo hi.
Proof.
  intros [H0 H1]. unfold Rmin, Rmax.
  destruct (Rle_dec lo hi) as [H|H]; split; nra.
Qed.

(** X1.  With finite [upper_bound < lower_bound] whose difference does not
    overflow, [uniformReal] stops at its assertion in a debug build and
    draws nothing; under [NDEBUG] it returns a value of the closed
    interval [[upper_bound, lower_bound]] and advances the engine by one
    draw. *)
Theorem uniformReal_reversed_bounds (lo hi : double) (g : RNG) :
  hi < lo -> finite_width lo hi ->
  (NDEBUG = false -> uniformReal lo hi g = Err AssertionFailed) /\
  (NDEBUG = true ->
   let x := (hi - lo) * draw g + lo in
   uniformReal lo hi g = Ok (x, advance g) /\ hi <= x <= lo).
Proof.
  intros H _. rewrite uniformReal_cases, (Rle_bool_false _ _ H). split.
  - intros E. rewrite E. reflexivity.
  - intros E x. rewrite E. split; [reflexivity|].
    destruct (draw_unit g) as [H0 H1]. unfold x. split; nra.
Qed.

(** X2.  [uniformReal(0, 1)] is [uniform01()]: the same value and the same
    engine after the call, in either build. *)
Theorem uniformReal_unit_interval (g : RNG) :
  uniformReal 0 1 g = uniform01 g.
Proof.
  rewrite uniformReal_eq by lra. rewrite uniform01_eq.
  f_equal. f_equal. ring.
Qed.

Lemma Int_part_ge (x : double) (m : Z) : IZR m <= x -> (m <= Int_part x)%Z.
Proof.
  intros H. destruct (Int_part_bounds x) as [_ H2].
  apply Z.lt_succ_r, lt_IZR. rewrite succ_IZR. lra.
Qed.

Lemma Int_part_le (x : double) (m : Z) : x <= IZR m -> (Int_part x <= m)%Z.
Proof.
  intros H. destruct (Int_part_bounds x) as [H1 _].
  apply le_IZR. lra.
Qed.

Lemma uniformInt_eq (lo hi : int) (g g' : RNG) (x : double) :
  uniformReal (IZR lo) (IZR hi + 1) g = Ok (x, g') ->
  in_int (Int_part x) ->
  uniformInt lo hi g
  = Ok ((if (Int_part x >? hi)%Z then hi else Int_part x), g').
Proof.
  intros E Hx. unfold uniformInt, bind. rewrite E.
  unfold lift. rewrite (int_of_double_floor x Hx). reflexivity.
Qed.

(** X5.  With [hi < lo], [uniformInt(lo, hi)] never returns a value above
    [hi]: for [lo = hi + 1] the assertion still holds and the clamp
    returns [hi]; for [lo > hi + 1] a debug build stops at the assertion
    and a build under [NDEBUG] returns [hi]. *)
Theorem uniformInt_reversed_bounds (lo hi : int) (g : RNG) :
  in_int lo -> in_int hi -> (hi < lo)%Z ->
  (lo = (hi + 1)%Z \/ NDEBUG = true ->
   uniformInt lo hi g = Ok (hi, advance g)) /\
  (NDEBUG = false -> (hi + 1 < lo)%Z ->
   uniformInt lo hi g = Err AssertionFailed).
Proof.
  intros Hlo Hhi Hlt. split.
  - intros Hcase.
    set (x := (IZR hi + 1 - IZR lo) * draw g + IZR lo).
    assert (E : uniformReal (IZR lo) (IZR hi + 1) g = Ok (x, advance g)).
    { rewrite uniformReal_cases. destruct Hcase as [El|En].
      - rewrite (Rle_bool_true (IZR lo) (IZR hi + 1))
          by (subst lo; rewrite plus_IZR; lra).
        rewrite orb_true_r. reflexivity.
      - rewrite En. reflexivity. }
    assert (Hx : IZR hi + 1 <= x <= IZR lo).
    { destruct (draw_unit g).
      assert (IZR hi + 1 <= IZR lo)
        by (rewrite <- plus_IZR; apply IZR_le; lia).
      unfold x. split; nra. }
    assert (G1 : (hi + 1 <= Int_part x)%Z)
      by (apply Int_part_ge; rewrite plus_IZR; lra).
    assert (G2 : (Int_part x <= lo)%Z) by (apply Int_part_le; lra).
    rewrite (uniformInt_eq lo hi g (advance g) x E).
    + assert (Hc : (Int_part x >? hi)%Z = true)
        by (rewrite Z.gtb_ltb; apply Z.ltb_lt; lia).
      rewrite Hc. reflexivity.
    + unfold in_int in *. lia.
  - intros En Hgap. unfold uniformInt, bind.
    rewrite uniformReal_cases, En, Rle_bool_false; [reflexivity|].
    rewrite <- plus_IZR. apply IZR_lt. lia.
Qed.

End RNG_edges.

(** ** SamplerR outside its precondition *)

Section SamplerR_edges.
Context {std : StdRandom} {build : Build} {vec : VectorType}.

Lemma box_draws_debug (lower : list double) :
  NDEBUG = false ->
  forall (upper : list double) (g : RNG),
    length upper = length lower ->
    (Forall2 Rle lower upper /\
     box_draws lower upper g
     = Ok (box_point lower upper g, advance_n (length lower) g)) \/
    (~ Forall2 Rle lower upper /\
     box_draws lower upper g = Err AssertionFailed).
Proof.
  intros En. induction lower as [|lo lower IH]; intros [|up upper] g E;
    simpl in E; try discriminate E.
  - left. split; [apply Forall2_nil|reflexivity].
  - rewrite box_draws_cons, uniformReal_cases, En. unfold Rle_bool.
    destruct (Rle_dec lo up) as [Hle|Hgt]; simpl.
    + destruct (IH upper (advance g)) as [[HF Eq]|[HN Eq]];
        [congruence| |]; rewrite Eq.
      * left. split; [apply Forall2_cons; assumption|reflexivity].
      * right. split; [|reflexivity].
        intros HF. inversion HF. contradiction.
    + right. split; [|reflexivity].
      intros HF. inversion HF. contradiction.
Qed.

Lemma box_draws_release (lower : list double) :
  NDEBUG = true ->
  forall (upper : list double) (g : RNG),
    length upper = length lower ->
    box_draws lower upper g
    = Ok (box_point lower upper g, advance_n (length lower) g).
Proof.
  intros En. induction lower as [|lo lower IH]; intros [|up upper] g E;
    simpl in E; try discriminate E.
  - reflexivity.
  - rewrite box_draws_cons, uniformReal_cases, En. simpl.
    rewrite IH by congruence. reflexivity.
Qed.

Lemma box_point_nth_any (lower : list double) :
  forall (upper : list double) (i : nat) (g : RNG),
    length upper = length lower -> (i < length lower)%nat ->
    nth i (box_point lower upper g) 0
    = (nth i upper 0 - nth i lower 0) * draw (advance_n i g) + nth i lower 0.
Proof.
  induction lower as [|lo lower IH]; intros [|up upper] i g E Hi;
    simpl in E, Hi; try discriminate E; try lia.
  destruct i as [|i]; simpl; [reflexivity|].
  apply IH; [congruence|lia].
Qed.

(** X6.  In a debug build, with [N]-element bounds, [SamplerR<N>::sample()]
    returns exactly when [lower_bound[i] <= upper_bound[i]] holds in every
    component; with one component out of order it stops at the assertion
    of [uniformReal] and returns no vector. *)
Theorem SamplerR_sample_returns_iff_ordered (N : nat) (this : SamplerR.t) :
  NDEBUG = false ->
  length (SamplerR.lower_bound this) = N ->
  length (SamplerR.upper_bound this) = N ->
  ((exists (q : VectorNd) (this' : SamplerR.t),
      SamplerR.sample N this = Ok (q, this')) <->
   Forall2 Rle (SamplerR.lower_bound this) (SamplerR.upper_bound this)) /\
  (~ Forall2 Rle (SamplerR.lower_bound this) (SamplerR.upper_bound this) ->
   SamplerR.sample N this = Err AssertionFailed).
Proof.
  intros En Hl Hu.
  rewrite (SamplerR_sample_eq N this Hl Hu). unfold rng_call.
  destruct (box_draws_debug (SamplerR.lower_bound this) En
              (SamplerR.upper_bound this) (rng (base this)))
    as [[HF Eq]|[HN Eq]]; [congruence| |]; rewrite Eq.
  - split; [|contradiction].
    split; [intros _; exact HF|].
    intros _. eexists; eexists; reflexivity.
  - split; [|intros _; reflexivity].
    split; [|contradiction].
    intros (q & this' & H). discriminate H.
Qed.

(** X7.  Under [NDEBUG], with [N]-element bounds in whatever order that
    are finite and whose differences do not overflow,
    [SamplerR<N>::sample()] returns an [N]-vector after exactly [N] draws;
    component [i] is scaled from the [i]-th draw and lies between
    [lower_bound[i]] and [upper_bound[i]], whichever is the smaller. *)
Theorem SamplerR_sample_release_between (N : nat) (this : SamplerR.t) :
  NDEBUG = true ->
  length (SamplerR.lower_bound this) = N ->
  Forall2 finite_width (SamplerR.lower_bound this)
    (SamplerR.upper_bound this) ->
  let g := rng (base this) in
  exists q : VectorNd,
    SamplerR.sample N this
    = Ok (q, with_base {| rng := advance_n N g |} this) /\
    length q = N /\
    forall i : nat,
      (i < N)%nat ->
      let lo := nth i (SamplerR.lower_bound this) 0 in
      let up := nth i (SamplerR.upper_bound this) 0 in
      nth i q 0 = (up - lo) * draw (advance_n i g) + lo /\
      Rmin lo up <= nth i q 0 <= Rmax lo up.
Proof.
  intros En Hl HW g.
  assert (E : length (SamplerR.upper_bound this)
              = length (SamplerR.lower_bound this))
    by (symmetry; apply (Forall2_length HW)).
  assert (Hu : length (SamplerR.upper_bound this) = N) by congruence.
  exists (box_point (SamplerR.lower_bound this) (SamplerR.upper_bound this) g).
  split; [|split].
  - rewrite (SamplerR_sample_eq N this Hl Hu). unfold rng_call. fold g.
    rewrite (box_draws_release _ En _ g E), Hl. reflexivity.
  - rewrite box_point_length; congruence.
  - intros i Hi lo up. rewrite <- Hl in Hi.
    rewrite (box_point_nth_any _ _ i g E Hi). fold lo up.
    split; [reflexivity|].
    apply between_bounds. apply draw_unit.
Qed.

End SamplerR_edges.

(** ** SamplerSE2 as a caller sees it *)

Section SamplerSE2_edges.
Context {std : StdRandom} {build : Build} {vec : VectorType}.

(** X10.  In a debug build, a [SamplerSE2] made from the scalars
    [(x_min, x_max, y_min, y_max)] with [y_min < x_min] stops at the
    assertion of [uniformReal] in [sample()], whatever [x_max] and [y_max]
    are: the draw of x pairs [x_min] with [y_min]. *)
Theorem SamplerSE2_scalar_ctor_asserts (g : RNG)
  (x_min x_max y_min y_max : FCL_REAL) :
  NDEBUG = false -> y_min < x_min ->
  SamplerSE2.sample (SamplerSE2.ctor4 g x_min x_max y_min y_max)
  = Err AssertionFailed.
Proof.
  intros En Hlt.
  rewrite (SamplerSE2_sample_eq
             (SamplerSE2.ctor4 g x_min x_max y_min y_max) x_min y_min
             eq_refl).
  unfold bind at 1. unfold rng_call at 1.
  rewrite uniformReal_cases, En, (Rle_bool_false _ _ Hlt). reflexivity.
Qed.

Lemma SamplerSE2_sample_shape (this this' : SamplerSE2.t)
  (l0 l1 : FCL_REAL) (q : VectorNd) :
  SamplerSE2.lower_bound this = [l0; l1] ->
  SamplerSE2.sample this = Ok (q, this') ->
  let g := rng (base this) in
  exists b : FCL_REAL,
    past_end 2 [l0; l1] 2 = Ok b /\
    q = [(l1 - l0) * draw g + l0;
         (b - l1) * draw (advance g) + l1;
         (PI - - PI) * draw (advance_n 2 g) + - PI] /\
    this' = with_base {| rng := advance_n 3 g |} this.
Proof.
  intros El H g.
  rewrite (SamplerSE2_sample_eq this l0 l1 El) in H.
  unfold bind, rng_call, lift, ret in H. fold g in H.
  destruct (uniformReal l0 l1 g) as [[x g1]|e] eqn:E1; [|discriminate H].
  apply uniformReal_Ok_inv in E1. destruct E1 as (Ex & Eg1 & _).
  destruct (past_end 2 [l0; l1] 2) as [b|e]; [|discriminate H].
  destruct this as [[g0] lo up]. simpl in H, g.
  destruct (uniformReal l1 b g1) as [[y g2]|e] eqn:E2; [|discriminate H].
  apply uniformReal_Ok_inv in E2. destruct E2 as (Ey & Eg2 & _).
  simpl in H.
  destruct (heading_range g2) as [Eh Hh]. rewrite Eh in H.
  inversion H. subst. exists b.
  split; [reflexivity|]. split; reflexivity.
Qed.

(** X11.  Whenever [SamplerSE2::sample()] returns on a two-element
    [lower_bound = (l0, l1)], the read past the end yielded some double
    [b], exactly three draws were taken, x is scaled from the first draw,
    y from the second with [l1] and [b] as its bounds, and the heading
    from the third and lies in [[-pi, pi)]; where the bounds of a draw
    are finite and their difference does not overflow, the coordinate
    lies between them. *)
Theorem SamplerSE2_sample_returned (this this' : SamplerSE2.t)
  (l0 l1 : FCL_REAL) (q : VectorNd) :
  SamplerSE2.lower_bound this = [l0; l1] ->
  SamplerSE2.sample this = Ok (q, this') ->
  let g := rng (base this) in
  exists b : FCL_REAL,
    past_end 2 [l0; l1] 2 = Ok b /\
    q = [(l1 - l0) * draw g + l0;
         (b - l1) * draw (advance g) + l1;
         (PI - - PI) * draw (advance_n 2 g) + - PI] /\
    this' = with_base {| rng := advance_n 3 g |} this /\
    (finite_width l0 l1 -> Rmin l0 l1 <= nth 0 q 0 <= Rmax l0 l1) /\
    (finite_width l1 b -> Rmin l1 b <= nth 1 q 0 <= Rmax l1 b) /\
    - PI <= nth 2 q 0 < PI.
Proof.
  intros El H g.
  destruct (SamplerSE2_sample_shape this this' l0 l1 q El H)
    as (b & Hb & Hq & Ht).
  fold g in Hq, Ht. exists b.
  split; [exact Hb|]. split; [exact Hq|]. split; [exact Ht|].
  rewrite Hq. simpl.
  split; [intros _; apply between_bounds, draw_unit|].
  split; [intros _; apply between_bounds, draw_unit|].
  apply (heading_range (advance (advance g))).
Qed.

End SamplerSE2_edges.

Section SamplerSE2_upper_bound.
Context {std : StdRandom} {build : Build}.


End SamplerSE2_upper_bound.

(** ** The bounds through setBound, sample and getBound *)

Section Bounds_round_trip.
Context {std : StdRandom} {build : Build} {vec : VectorType}
  {ext : External}.

(** X9.  For each sampler that has [getBound]: after [setBound] with some
    bounds and a [sample()] that returns, [getBound] yields those very
    bounds and leaves the object as it is. *)
Theorem getBound_after_setBound_and_sample :
  (forall (N : nat) (this this' : SamplerR.t) (lo up q : VectorNd),
     (_ <- SamplerR.setBound lo up ;; SamplerR.sample N) this
     = Ok (q, this') ->
     SamplerR.getBound this' = Ok ((lo, up), this')) /\
  (forall (this this' : SamplerSE2.t) (lo up q : VectorNd),
     (_ <- SamplerSE2.setBound lo up ;; SamplerSE2.sample) this
     = Ok (q, this') ->
     SamplerSE2.getBound this' = Ok ((lo, up), this')) /\
  (forall (this this' : SamplerSE3Euler.t) (lo up q : VectorNd),
     (_ <- SamplerSE3Euler.setBound lo up ;; SamplerSE3Euler.sample) this
     = Ok (q, this') ->
     SamplerSE3Euler.getBound this' = Ok ((lo, up), this')) /\
  (forall (this this' : SamplerSE3Quat.t) (lo up q : VectorNd),
     (_ <- SamplerSE3Quat.setBound lo up ;; SamplerSE3Quat.sample) this
     = Ok (q, this') ->
     SamplerSE3Quat.getBound this' = Ok ((lo, up), this')) /\
  (forall (this this' : SamplerSE3Euler_ball.t) (r_ : FCL_REAL)
          (q : VectorNd),
     (_ <- SamplerSE3Euler_ball.setBound r_ ;; SamplerSE3Euler_ball.sample)
       this
     = Ok (q, this') ->
     SamplerSE3Euler_ball.getBound this' = Ok (r_, this')) /\
  (forall (this this' : SamplerSE3Quat_ball.t) (r_ : FCL_REAL)
          (q : VectorNd),
     (_ <- SamplerSE3Quat_ball.setBound r_ ;; SamplerSE3Quat_ball.sample)
       this
     = Ok (q, this') ->
     SamplerSE3Quat_ball.getBound this' = Ok (r_, this')).
Proof.
  repeat split; intros.
  - pose proof (SamplerR_sample_keeps N _ _ _ H) as K. simpl in K.
    unfold SamplerR.getBound, bind, member, ret. congruence.
  - pose proof (SamplerSE2_sample_keeps _ _ _ H) as K. simpl in K.
    unfold SamplerSE2.getBound, bind, member, ret. congruence.
  - pose proof (SamplerSE3Euler_sample_keeps _ _ _ H) as K. simpl in K.
    unfold SamplerSE3Euler.getBound, bind, member, ret. congruence.
  - pose proof (SamplerSE3Quat_sample_keeps _ _ _ H) as K. simpl in K.
    unfold SamplerSE3Quat.getBound, bind, member, ret. congruence.
  - pose proof (SamplerSE3Euler_ball_sample_keeps _ _ _ H) as K. simpl in K.
    unfold SamplerSE3Euler_ball.getBound, member. congruence.
  - pose proof (SamplerSE3Quat_ball_sample_keeps _ _ _ H) as K. simpl in K.
    unfold SamplerSE3Quat_ball.getBound, member. congruence.
Qed.

End Bounds_round_trip.

(** ** The Euler samplers against the quaternion samplers *)

Section Euler_and_Quat.
Context {std : StdRandom} {build : Build} {vec : VectorType}
  {ext : External}.

Lemma SamplerSE3Euler_sample_eq (this : SamplerSE3Euler.t)
  (l0 l1 l2 u0 u1 u2 : FCL_REAL) :
  SamplerSE3Euler.lower_bound this = [l0; l1; l2] ->
  SamplerSE3Euler.upper_bound this = [u0; u1; u2] ->
  SamplerSE3Euler.sample this
  = (x <- rng_call (uniformReal l0 u0) ;;
     y <- rng_call (uniformReal l1 u1) ;;
     z <- rng_call (uniformReal l2 u2) ;;
     s <- rng_call quaternion ;;
     let a := eulerAngles (fst (fst (fst s))) (snd (fst (fst s)))
                (snd (fst s)) (snd s) in
     ret [x; y; z; fst (fst a); snd (fst a); snd a]) this.
Proof.
  intros El Eu. unfold SamplerSE3Euler.sample.
  pose proof (VectorNd_init_size 6) as H6.
  destruct (VectorNd_init 6)
    as [|a0 [|a1 [|a2 [|a3 [|a4 [|a5 [|a6 v]]]]]]];
    try discriminate H6.
  destruct this as [[g] lo up]. simpl in El, Eu. subst lo up.
  unfold bind, member_coeff, bind, member, lift, coeff, assign, lift,
    set_coeff, rng_call, ret.
  simpl. outcomes.
  all: match goal with
       | |- context [eulerAngles ?a ?b ?c ?d] =>
           destruct (eulerAngles a b c d) as [[? ?] ?]
       end; reflexivity.
Qed.

Lemma SamplerSE3Quat_ball_sample_eq (this : SamplerSE3Quat_ball.t) :
  SamplerSE3Quat_ball.sample this
  = (p <- rng_call (ball 0 (SamplerSE3Quat_ball.r this)) ;;
     s <- rng_call quaternion ;;
     ret [fst (fst p); snd (fst p); snd p;
          fst (fst (fst s)); snd (fst (fst s)); snd (fst s); snd s]) this.
Proof.
  unfold SamplerSE3Quat_ball.sample.
  pose proof (VectorNd_init_size 7) as H7.
  destruct (VectorNd_init 7)
    as [|a0 [|a1 [|a2 [|a3 [|a4 [|a5 [|a6 [|a7 v]]]]]]]];
    try discriminate H7.
  destruct this as [[g] r_].
  unfold bind, member, lift, assign, lift, set_coeff, rng_call, ret.
  simpl. outcomes.
Qed.

Lemma SamplerSE3Euler_ball_sample_eq (this : SamplerSE3Euler_ball.t) :
  SamplerSE3Euler_ball.sample this
  = (p <- rng_call (ball 0 (SamplerSE3Euler_ball.r this)) ;;
     s <- rng_call quaternion ;;
     let a := eulerAngles (fst (fst (fst s))) (snd (fst (fst s)))
                (snd (fst s)) (snd s) in
     ret [fst (fst p); snd (fst p); snd p;
          fst (fst a); snd (fst a); snd a]) this.
Proof.
  unfold SamplerSE3Euler_ball.sample.
  pose proof (VectorNd_init_size 6) as H6.
  destruct (VectorNd_init 6)
    as [|a0 [|a1 [|a2 [|a3 [|a4 [|a5 [|a6 v]]]]]]];
    try discriminate H6.
  destruct this as [[g] r_].
  unfold bind, member, lift, assign, lift, set_coeff, rng_call, ret.
  simpl. outcomes.
  all: match goal with
       | |- context [eulerAngles ?a ?b ?c ?d] =>
           destruct (eulerAngles a b c d) as [[? ?] ?]
       end; reflexivity.
Qed.

(** X12.  On the same three-element bounds and the same engine state,
    [SamplerSE3Euler::sample()] returns exactly when
    [SamplerSE3Quat::sample()] does, with the same fault otherwise; it
    returns the same position and leaves the same engine, and its three
    angles are the conversion of the four quaternion components, handed
    over in the order [s[0], s[1], s[2], s[3]]. *)
Theorem SamplerSE3Euler_sample_as_Quat (g : RNG)
  (l0 l1 l2 u0 u1 u2 : FCL_REAL) :
  let lower := [l0; l1; l2] in
  let upper := [u0; u1; u2] in
  match SamplerSE3Quat.sample (SamplerSE3Quat.ctor g lower upper) with
  | Ok (q, thisQ) =>
      exists x y z s0 s1 s2 s3 : FCL_REAL,
        q = [x; y; z; s0; s1; s2; s3] /\
        let a := eulerAngles s0 s1 s2 s3 in
        SamplerSE3Euler.sample (SamplerSE3Euler.ctor g lower upper)
        = Ok ([x; y; z; fst (fst a); snd (fst a); snd a],
              SamplerSE3Euler.ctor (rng (base thisQ)) lower upper)
  | Err e =>
      SamplerSE3Euler.sample (SamplerSE3Euler.ctor g lower upper) = Err e
  end.
Proof.
  intros lower upper.
  rewrite (SamplerSE3Quat_sample_eq (SamplerSE3Quat.ctor g lower upper)
             l0 l1 l2 u0 u1 u2 eq_refl eq_refl).
  rewrite (SamplerSE3Euler_sample_eq (SamplerSE3Euler.ctor g lower upper)
             l0 l1 l2 u0 u1 u2 eq_refl eq_refl).
  unfold bind, rng_call, ret. simpl.
  destruct (uniformReal l0 u0 g) as [[x g1]|e]; [simpl|reflexivity].
  destruct (uniformReal l1 u1 g1) as [[y g2]|e]; [simpl|reflexivity].
  destruct (uniformReal l2 u2 g2) as [[z g3]|e]; [simpl|reflexivity].
  destruct (quaternion g3) as [[[[[s0 s1] s2] s3] g4]|e];
    [simpl|reflexivity].
  exists x, y, z, s0, s1, s2, s3. split; reflexivity.
Qed.

(** X13.  The same for the ball samplers: on the same radius and engine state,
    [SamplerSE3Euler_ball::sample()] returns exactly when
    [SamplerSE3Quat_ball::sample()] does, with its position and its
    engine, and with the conversion of its quaternion as the angles. *)
Theorem SamplerSE3Euler_ball_sample_as_Quat_ball (g : RNG) (r_ : FCL_REAL) :
  match SamplerSE3Quat_ball.sample (SamplerSE3Quat_ball.ctor g r_) with
  | Ok (q, thisQ) =>
      exists x y z s0 s1 s2 s3 : FCL_REAL,
        q = [x; y; z; s0; s1; s2; s3] /\
        let a := eulerAngles s0 s1 s2 s3 in
        SamplerSE3Euler_ball.sample (SamplerSE3Euler_ball.ctor g r_)
        = Ok ([x; y; z; fst (fst a); snd (fst a); snd a],
              SamplerSE3Euler_ball.ctor (rng (base thisQ)) r_)
  | Err e =>
      SamplerSE3Euler_ball.sample (SamplerSE3Euler_ball.ctor g r_) = Err e
  end.
Proof.
  rewrite (SamplerSE3Quat_ball_sample_eq (SamplerSE3Quat_ball.ctor g r_)).
  rewrite (SamplerSE3Euler_ball_sample_eq (SamplerSE3Euler_ball.ctor g r_)).
  unfold bind, rng_call, ret. simpl.
  destruct (ball 0 r_ g) as [[[[x y] z] g1]|e]; [simpl|reflexivity].
  destruct (quaternion g1) as [[[[[s0 s1] s2] s3] g2]|e];
    [simpl|reflexivity].
  exists x, y, z, s0, s1, s2, s3. split; reflexivity.
Qed.

(** X14.  [SamplerSE3Quat_ball::sample()] calls [rng.ball(0, r)] first and
    [rng.quaternion] on the engine that call left: for the point
    [(x, y, z)] and the quaternion [(s0, s1, s2, s3)] they yield it
    returns [(x, y, z, s0, s1, s2, s3)]; a fault of [ball] is the fault of
    [sample()], and the inner radius handed to [ball] is 0 whatever [r]
    is. *)
Theorem SamplerSE3Quat_ball_sample_pose (this : SamplerSE3Quat_ball.t) :
  let g := rng (base this) in
  (forall (x y z s0 s1 s2 s3 : FCL_REAL) (g1 g2 : RNG),
     ball 0 (SamplerSE3Quat_ball.r this) g = Ok ((x, y, z), g1) ->
     quaternion g1 = Ok ((s0, s1, s2, s3), g2) ->
     SamplerSE3Quat_ball.sample this
     = Ok ([x; y; z; s0; s1; s2; s3], with_base {| rng := g2 |} this)) /\
  (forall e : fault,
     ball 0 (SamplerSE3Quat_ball.r this) g = Err e ->
     SamplerSE3Quat_ball.sample this = Err e).
Proof.
  intros g. split.
  - intros x y z s0 s1 s2 s3 g1 g2 Hb Hq.
    rewrite SamplerSE3Quat_ball_sample_eq.
    unfold bind, rng_call, ret. fold g. rewrite Hb.
    destruct this as [[g0] r_]. simpl. rewrite Hq. reflexivity.
  - intros e Hb. rewrite SamplerSE3Quat_ball_sample_eq.
    unfold bind, rng_call. fold g. rewrite Hb. reflexivity.
Qed.

End Euler_and_Quat.

(** ** setBound between two samples *)

Section SamplerR_rebound.
Context {std : StdRandom} {build : Build} {vec : VectorType}.

Lemma SamplerR_sample_ordered (N : nat) (this : SamplerR.t) :
  length (SamplerR.lower_bound this) = N ->
  Forall2 Rle (SamplerR.lower_bound this) (SamplerR.upper_bound this) ->
  SamplerR.sample N this
  = Ok (box_point (SamplerR.lower_bound this) (SamplerR.upper_bound this)
          (rng (base this)),
        with_base {| rng := advance_n N (rng (base this)) |} this).
Proof.
  intros Hl HF.
  assert (Hu : length (SamplerR.upper_bound this) = N)
    by (rewrite <- Hl; symmetry; apply (Forall2_length HF)).
  rewrite (SamplerR_sample_eq N this Hl Hu). unfold rng_call.
  rewrite (box_draws_eq _ _ HF), Hl. reflexivity.
Qed.

(** X8.  [setBound] leaves the engine alone: a [sample()], a [setBound] to
    other bounds and a second [sample()] give the point of the old box
    from the first [N] draws and the point of the new box from the next
    [N] draws, and leave a sampler with the new bounds. *)
Theorem SamplerR_setBound_between_samples (N : nat) (this : SamplerR.t)
  (lower2 upper2 : VectorNd) :
  length (SamplerR.lower_bound this) = N ->
  Forall2 Rle (SamplerR.lower_bound this) (SamplerR.upper_bound this) ->
  length lower2 = N -> Forall2 Rle lower2 upper2 ->
  let g := rng (base this) in
  (q1 <- SamplerR.sample N ;;
   _ <- SamplerR.setBound lower2 upper2 ;;
   q2 <- SamplerR.sample N ;;
   ret (q1, q2)) this
  = Ok ((box_point (SamplerR.lower_bound this) (SamplerR.upper_bound this) g,
         box_point lower2 upper2 (advance_n N g)),
        SamplerR.ctor (advance_n N (advance_n N g)) lower2 upper2).
Proof.
  intros Hl HF Hl2 HF2 g.
  unfold bind at 1. rewrite (SamplerR_sample_ordered N this Hl HF). fold g.
  unfold bind at 1. unfold SamplerR.setBound at 1.
  unfold bind at 1.
  rewrite (SamplerR_sample_ordered N
             {| SamplerR.sampler_base :=
                  SamplerR.sampler_base
                    (with_base {| rng := advance_n N g |} this);
                SamplerR.lower_bound := lower2;
                SamplerR.upper_bound := upper2 |} Hl2 HF2).
  reflexivity.
Qed.

End SamplerR_rebound.

(** ** Runs of the further properties *)

Lemma SamplerSE2_sample_stray {std : StdRandom} {build : Build}
  (d l0 l1 : FCL_REAL) (this : SamplerSE2.t) :
  SamplerSE2.lower_bound this = [l0; l1] ->
  NDEBUG = true \/ (l0 <= l1 /\ l1 <= d) ->
  let g := rng (base this) in
  @SamplerSE2.sample std build (stray_vectors d) this
  = Ok ([(l1 - l0) * draw g + l0;
         (d - l1) * draw (advance g) + l1;
         (PI - - PI) * draw (advance_n 2 g) + - PI],
        with_base {| rng := advance_n 3 g |} this).
Proof.
  intros El Hc g.
  assert (Ex : forall g', uniformReal l0 l1 g'
                          = Ok ((l1 - l0) * draw g' + l0, advance g')).
  { intros g'. rewrite uniformReal_cases. destruct Hc as [En|[H0 _]].
    - rewrite En. reflexivity.
    - rewrite (Rle_bool_true _ _ H0), orb_true_r. reflexivity. }
  assert (Ey : forall g', uniformReal l1 d g'
                          = Ok ((d - l1) * draw g' + l1, advance g')).
  { intros g'. rewrite uniformReal_cases. destruct Hc as [En|[_ H1]].
    - rewrite En. reflexivity.
    - rewrite (Rle_bool_true _ _ H1), orb_true_r. reflexivity. }
  rewrite (@SamplerSE2_sample_eq std build (stray_vectors d) this l0 l1 El).
  unfold bind, rng_call, lift, ret. fold g.
  destruct this as [[g0] lo up]. simpl in g. simpl.
  rewrite Ex. simpl. rewrite Ey. simpl.
  destruct (heading_range (advance (advance g))) as [Eh _].
  rewrite Eh. reflexivity.
Qed.

Section Further_runs.
#[local] Existing Instance midpoint_random.
#[local] Existing Instance checked_vectors.
#[local] Existing Instance axis_external.



Lemma uniformReal_reversed_bounds_witness :
  let g := fresh midpoint_random 0%nat in
  0 < 1 /\ finite_width 1 0 /\
  @uniformReal midpoint_random debug_build 1 0 g = Err AssertionFailed /\
  let x := (0 - 1) * draw g + 1 in
  @uniformReal midpoint_random release_build 1 0 g = Ok (x, advance g) /\
  0 <= x <= 1.
Proof.
  intros g.
  assert (HW : finite_width 1 0)
    by (apply finite_width_small; rewrite Rabs_pos_eq; lra).
  split; [lra|]. split; [exact HW|]. split.
  - apply (@uniformReal_reversed_bounds midpoint_random debug_build 1 0 g);
      [lra|exact HW|reflexivity].
  - apply (@uniformReal_reversed_bounds midpoint_random release_build 1 0 g);
      [lra|exact HW|reflexivity].
Defined.

Lemma uniformInt_reversed_bounds_witness :
  let g := fresh midpoint_random 0%nat in
  @uniformInt midpoint_random debug_build 7%Z 6%Z g = Ok (6%Z, advance g) /\
  @uniformInt midpoint_random release_build 9%Z 6%Z g = Ok (6%Z, advance g) /\
  @uniformInt midpoint_random debug_build 9%Z 6%Z g = Err AssertionFailed.
Proof.
  intros g. split; [|split].
  - apply (@uniformInt_reversed_bounds midpoint_random debug_build 7%Z 6%Z g);
      try (unfold in_int, INT_MIN, INT_MAX; lia).
  - apply (@uniformInt_reversed_bounds midpoint_random release_build
             9%Z 6%Z g);
      try (unfold in_int, INT_MIN, INT_MAX; lia).
    right. reflexivity.
  - apply (@uniformInt_reversed_bounds midpoint_random debug_build 9%Z 6%Z g);
      try (unfold in_int, INT_MIN, INT_MAX; lia).
    reflexivity.
Defined.

Lemma SamplerR_sample_returns_iff_ordered_witness :
  let ordered := SamplerR.ctor (fresh midpoint_random 0%nat) [0; 1] [1; 3] in
  let reversed := SamplerR.ctor (fresh midpoint_random 0%nat) [0; 3] [1; 1] in
  (exists (q : VectorNd) (this' : SamplerR.t),
     @SamplerR.sample midpoint_random debug_build checked_vectors 2 ordered
     = Ok (q, this')) /\
  @SamplerR.sample midpoint_random debug_build checked_vectors 2 reversed
  = Err AssertionFailed.
Proof.
  intros ordered reversed. split.
  - apply (@SamplerR_sample_returns_iff_ordered midpoint_random debug_build
             checked_vectors 2%nat ordered eq_refl eq_refl eq_refl).
    simpl. repeat (apply Forall2_cons; [lra|]). apply Forall2_nil.
  - apply (@SamplerR_sample_returns_iff_ordered midpoint_random debug_build
             checked_vectors 2%nat reversed eq_refl eq_refl eq_refl).
    simpl. intros HF. inversion HF as [|? ? ? ? _ HF']. inversion HF'. lra.
Defined.

Lemma SamplerR_sample_release_between_witness :
  let this := SamplerR.ctor (fresh midpoint_random 0%nat) [0; 3] [1; 1] in
  let g := rng (base this) in
  exists q : VectorNd,
    @SamplerR.sample midpoint_random release_build checked_vectors 2 this
    = Ok (q, with_base {| rng := advance_n 2 g |} this) /\
    length q = 2%nat /\
    forall i : nat,
      (i < 2)%nat ->
      let lo := nth i (SamplerR.lower_bound this) 0 in
      let up := nth i (SamplerR.upper_bound this) 0 in
      nth i q 0 = (up - lo) * draw (advance_n i g) + lo /\
      Rmin lo up <= nth i q 0 <= Rmax lo up.
Proof.
  intros this.
  apply (@SamplerR_sample_release_between midpoint_random release_build
           checked_vectors 2%nat this); try reflexivity.
  simpl.
  repeat (apply Forall2_cons;
          [apply finite_width_small; rewrite Rabs_pos_eq; lra|]).
  apply Forall2_nil.
Defined.

Lemma SamplerSE2_scalar_ctor_asserts_witness :
  @SamplerSE2.sample midpoint_random debug_build checked_vectors
    (SamplerSE2.ctor4 (fresh midpoint_random 0%nat) 0 10 (-5) 5)
  = Err AssertionFailed.
Proof.
  apply (@SamplerSE2_scalar_ctor_asserts midpoint_random debug_build
           checked_vectors); [reflexivity|lra].
Defined.

Lemma SamplerSE2_sample_returned_witness :
  let this := SamplerSE2.ctor (fresh midpoint_random 0%nat) [1; 3] [2; 4] in
  let g := rng (base this) in
  exists (q : VectorNd) (b : FCL_REAL),
    @past_end (stray_vectors 5) 2 [1; 3] 2 = Ok b /\
    q = [(3 - 1) * draw g + 1;
         (b - 3) * draw (advance g) + 3;
         (PI - - PI) * draw (advance_n 2 g) + - PI] /\
    Rmin 1 3 <= nth 0 q 0 <= Rmax 1 3 /\
    - PI <= nth 2 q 0 < PI.
Proof.
  intros this g.
  assert (E : SamplerSE2.lower_bound this = [1; 3]) by reflexivity.
  assert (Hc : @NDEBUG debug_build = true \/ (1 <= 3 /\ 3 <= 5))
    by (right; lra).
  pose proof (@SamplerSE2_sample_stray midpoint_random debug_build 5 1 3
                this E Hc) as Hs.
  destruct (@SamplerSE2_sample_returned midpoint_random debug_build
              (stray_vectors 5) this _ 1 3 _ E Hs)
    as (b & Hb & Hq & _ & Hx & _ & Hh).
  eexists. exists b.
  split; [exact Hb|]. split; [exact Hq|].
  split; [|exact Hh].
  apply Hx. apply finite_width_small; rewrite Rabs_pos_eq; lra.
Defined.


Lemma getBound_after_setBound_and_sample_witness :
  let this := SamplerR.default_ctor 2 (fresh midpoint_random 0%nat) in
  exists (q : VectorNd) (this' : SamplerR.t),
    (_ <- SamplerR.setBound [0; 1] [1; 3] ;;
     @SamplerR.sample midpoint_random debug_build checked_vectors 2) this
    = Ok (q, this') /\
    SamplerR.getBound this' = Ok (([0; 1], [1; 3]), this').
Proof.
  intros this.
  assert (HF : Forall2 Rle [0; 1] [1; 3])
    by (repeat (apply Forall2_cons; [lra|]); apply Forall2_nil).
  set (that := SamplerR.ctor (fresh midpoint_random 0%nat) [0; 1] [1; 3]).
  assert (E : (_ <- SamplerR.setBound [0; 1] [1; 3] ;;
               @SamplerR.sample midpoint_random debug_build checked_vectors 2)
                this
              = Ok (box_point [0; 1] [1; 3] (rng (base that)),
                    with_base {| rng := advance_n 2 (rng (base that)) |}
                      that)).
  { unfold bind. simpl SamplerR.setBound.
    change (@SamplerR.sample midpoint_random debug_build checked_vectors 2
              that = Ok (box_point [0; 1] [1; 3] (rng (base that)),
                         with_base
                           {| rng := advance_n 2 (rng (base that)) |} that)).
    rewrite (@SamplerR_sample_eq midpoint_random debug_build checked_vectors
               2%nat that eq_refl eq_refl).
    unfold rng_call. simpl SamplerR.lower_bound. simpl SamplerR.upper_bound.
    rewrite (@box_draws_eq midpoint_random debug_build _ _ HF). reflexivity. }
  eexists; eexists. split; [exact E|].
  destruct (@getBound_after_setBound_and_sample midpoint_random debug_build
              checked_vectors axis_external) as [HR _].
  exact (HR 2%nat this _ _ _ _ E).
Defined.

Lemma SamplerSE3Quat_ball_sample_pose_witness :
  let this := SamplerSE3Quat_ball.ctor (fresh midpoint_random 0%nat) 2 in
  let g := rng (base this) in
  exists s0 s1 s2 s3 : FCL_REAL,
    SamplerSE3Quat_ball.sample this
    = Ok ([2 * draw g; 0; 0; s0; s1; s2; s3],
          with_base {| rng := advance_n 4 g |} this).
Proof.
  intros this g.
  destruct (SamplerSE3Quat_ball_sample_pose this) as [H1 _].
  pose proof (@quaternion_eq midpoint_random (advance g)) as Hq.
  cbv zeta in Hq.
  do 4 eexists.
  apply (H1 _ _ _ _ _ _ _ (advance g) _); [reflexivity|exact Hq].
Defined.

Lemma SamplerR_setBound_between_samples_witness :
  let this := SamplerR.ctor (fresh midpoint_random 0%nat) [0; 1] [1; 3] in
  let g := rng (base this) in
  (q1 <- @SamplerR.sample midpoint_random debug_build checked_vectors 2 ;;
   _ <- SamplerR.setBound [5; 5] [6; 7] ;;
   q2 <- @SamplerR.sample midpoint_random debug_build checked_vectors 2 ;;
   ret (q1, q2)) this
  = Ok ((box_point [0; 1] [1; 3] g, box_point [5; 5] [6; 7] (advance_n 2 g)),
        SamplerR.ctor (advance_n 2 (advance_n 2 g)) [5; 5] [6; 7]).
Proof.
  intros this g.
  apply (@SamplerR_setBound_between_samples midpoint_random debug_build
           checked_vectors 2%nat this [5; 5] [6; 7]);
    try reflexivity;
    simpl; repeat (apply Forall2_cons; [lra|]); apply Forall2_nil.
Defined.

End Further_runs.
